(** * STM32SD: the File / SDClass wrapper over FatFs (src/src/SD.cpp)

    A shallow embedding of the wrapper's handle type [File] and of the
    operations of [SDClass] and [File] that open, close, read, seek and
    enumerate.  The FatFs driver is an interface ([Driver]); the wrapper's
    functions are written once, for every driver, in a small monad that
    threads the volume, the C heap and a log of the driver calls, and that
    has outcomes for [Error_Handler()] and for undefined behaviour. *)

From Stdlib Require Import ZArith Lia Ascii String.
From Stdlib.Strings Require Import Byte.
From stdpp Require Import gmap strings list.

Local Open Scope Z_scope.

(** ** ff.h: result codes, mode flags, the objects FIL, DIR and FILINFO *)

Inductive FRESULT :=
| FR_OK | FR_DISK_ERR | FR_INT_ERR | FR_NOT_READY | FR_NO_FILE | FR_NO_PATH
| FR_INVALID_NAME | FR_DENIED | FR_EXIST | FR_INVALID_OBJECT
| FR_WRITE_PROTECTED | FR_INVALID_DRIVE | FR_NOT_ENABLED | FR_NO_FILESYSTEM
| FR_MKFS_ABORTED | FR_TIMEOUT | FR_LOCKED | FR_NOT_ENOUGH_CORE
| FR_TOO_MANY_OPEN_FILES | FR_INVALID_PARAMETER.

#[global] Instance FRESULT_eq_dec : EqDecision FRESULT.
Proof. solve_decision. Defined.

(** Modelled from the spec: ff.h of FatFs, which gives the mode bits their
    values, is not among the sources.  The spec (4.2) makes the mode a
    bitmask with a READ bit, a WRITE bit and create flags; the values are
    those of FatFs. *)
Definition FA_READ : Z := 0x01.
(** Modelled from the spec: the WRITE bit of the mode (ff.h). *)
Definition FA_WRITE : Z := 0x02.
(** Modelled from the spec: a create flag of the mode (ff.h): fail when the
    file exists. *)
Definition FA_CREATE_NEW : Z := 0x04.
(** Modelled from the spec: the create flag that [open] adds (ff.h). *)
Definition FA_CREATE_ALWAYS : Z := 0x08.
(** Modelled from the spec: a create flag of the mode (ff.h): open the
    file, or create it. *)
Definition FA_OPEN_ALWAYS : Z := 0x10.
(** Modelled from the spec: STM32SD.h, which defines [FILE_READ] and
    [FILE_WRITE], is not among the sources; they are the spec's READ and
    WRITE modes, which STM32SD.h takes from FatFs. *)
Definition FILE_READ : Z := FA_READ.
(** Modelled from the spec: see [FILE_READ]. *)
Definition FILE_WRITE : Z := FA_WRITE.
(** Modelled from the spec: the directory bit of an entry's attributes
    (ff.h). *)
Definition AM_DIR : Z := 0x10.

(** A mode requests write access when its [FA_WRITE] bit is set. *)
Definition requests_write (mode : Z) : bool := negb (Z.land mode FA_WRITE =? 0).

(** The file object.  The wrapper reads [obj.fs] (0 when the object is not
    bound to a volume), and, through the macros [f_size] and [f_tell],
    [obj.objsize] and [fptr]; the other members belong to the driver. *)
Record FIL (R : Type) := mkFIL {
  fil_fs : Z;
  fil_objsize : Z;
  fil_fptr : Z;
  fil_rest : R
}.
Arguments mkFIL {R}.
Arguments fil_fs {R}.
Arguments fil_objsize {R}.
Arguments fil_fptr {R}.
Arguments fil_rest {R}.

Record DIR (R : Type) := mkDIR {
  dir_fs : Z;
  dir_rest : R
}.
Arguments mkDIR {R}.
Arguments dir_fs {R}.
Arguments dir_rest {R}.

Record FILINFO := mkFILINFO {
  fname : string;
  fattrib : Z;
  fsize : Z
}.

Definition f_size {R} (fp : FIL R) : Z := fil_objsize fp.
Definition f_tell {R} (fp : FIL R) : Z := fil_fptr fp.

(** The driver, an external collaborator of the wrapper (spec 6): every call
    takes the volume and returns the new one; a call on an object returns
    the object as the driver leaves it. *)
Class Driver := {
  vol : Type;
  fil_priv : Type;
  dir_priv : Type;
  f_stat : vol -> string -> FRESULT * FILINFO * vol;
  f_mkdir : vol -> string -> FRESULT * vol;
  f_open : vol -> FIL fil_priv -> string -> Z -> FRESULT * FIL fil_priv * vol;
  f_opendir : vol -> DIR dir_priv -> string -> FRESULT * DIR dir_priv * vol;
  f_readdir : vol -> DIR dir_priv -> FRESULT * FILINFO * DIR dir_priv * vol;
  f_read : vol -> FIL fil_priv -> nat -> FRESULT * list byte * FIL fil_priv * vol;
  f_lseek : vol -> FIL fil_priv -> Z -> FRESULT * FIL fil_priv * vol;
  f_sync : vol -> FIL fil_priv -> FRESULT * FIL fil_priv * vol;
  f_close : vol -> FIL fil_priv -> FRESULT * FIL fil_priv * vol;
  f_closedir : vol -> DIR dir_priv -> FRESULT * DIR dir_priv * vol
}.

(** ** C strings *)

(** [strrchr s c]: the index of the last [c] in [s], if any ([c] is never
    the terminator here). *)
Fixpoint strrchr (s : string) (c : ascii) : option nat :=
  match s with
  | EmptyString => None
  | String a s' =>
      match strrchr s' c with
      | Some i => Some (S i)
      | None => if Ascii.eqb a c then Some 0%nat else None
      end
  end.

(** The C string that starts [off] characters into [s]. *)
Fixpoint str_at (s : string) (off : nat) : string :=
  match off, s with
  | O, _ => s
  | S n, String _ s' => str_at s' n
  | S _, EmptyString => EmptyString
  end.

(** The character [s[i]]; the terminator when [i] is the length. *)
Definition char_at (s : string) (i : nat) : ascii :=
  match String.get i s with Some a => a | None => zero end.

Definition slash : ascii := "/"%char.
Definition dot : ascii := "."%char.

(** ** Memory, the world and the monad *)

Section Wrapper.
Context {D : Driver}.

Definition loc := positive.
Definition ptr := option loc.
Definition NULL : ptr := None.

(** A heap block is a character array of [cap] bytes that holds a string
    (or nothing yet), or a file object. *)
Inductive block :=
| BChars (cap : nat) (s : option string)
| BFil (f : FIL fil_priv).

(** Calls of the driver, with the result code each returned. *)
Inductive event :=
| EvStat (path : string) (r : FRESULT)
| EvMkdir (path : string) (r : FRESULT)
| EvOpen (path : string) (mode : Z) (r : FRESULT)
| EvOpendir (path : string) (r : FRESULT)
| EvReaddir (r : FRESULT) (fn : string)
| EvRead (btr : nat) (r : FRESULT) (br : nat)
| EvLseek (ofs : Z) (r : FRESULT)
| EvSync (r : FRESULT)
| EvClose (r : FRESULT)
| EvClosedir (r : FRESULT).

(** What the program finds in storage it has not written: a block from
    [malloc(sizeof(FIL))], the member [_dir] of a [File] under construction
    (its declaration is in the header, which is not among the sources, and
    the constructor does not assign it), and the local [data] of [read]. *)
Record uninit := mkUninit {
  u_fil : FIL fil_priv;
  u_dir : DIR dir_priv;
  u_data : byte
}.

(** [w_plan] decides the coming calls of [malloc] ([false]: the call returns
    NULL; when the plan is used up every call succeeds).  [w_log] has the
    most recent driver call first. *)
Record world := mkWorld {
  w_vol : vol;
  w_heap : gmap loc block;
  w_plan : list bool;
  w_log : list event;
  w_uninit : uninit
}.

Definition set_vol (v : vol) (w : world) : world :=
  mkWorld v (w_heap w) (w_plan w) (w_log w) (w_uninit w).
Definition set_heap (h : gmap loc block) (w : world) : world :=
  mkWorld (w_vol w) h (w_plan w) (w_log w) (w_uninit w).
Definition set_plan (p : list bool) (w : world) : world :=
  mkWorld (w_vol w) (w_heap w) p (w_log w) (w_uninit w).
Definition log_event (e : event) (w : world) : world :=
  mkWorld (w_vol w) (w_heap w) (w_plan w) (e :: w_log w) (w_uninit w).

(** [Abort]: [Error_Handler()] was called, which does not return.
    [Undef]: undefined behaviour (a load or [free] through a pointer that is
    null or not live, a write past a buffer).  [OutOfFuel]: a loop was cut. *)
Inductive outcome (A : Type) :=
| Ret (a : A) (w : world)
| Abort
| Undef
| OutOfFuel.
Arguments Ret {A}.
Arguments Abort {A}.
Arguments Undef {A}.
Arguments OutOfFuel {A}.

Definition M (A : Type) : Type := world -> outcome A.

#[global] Instance M_ret : MRet M := fun A a w => Ret a w.
#[global] Instance M_bind : MBind M := fun A B k m w =>
  match m w with
  | Ret a w' => k a w'
  | Abort => Abort
  | Undef => Undef
  | OutOfFuel => OutOfFuel
  end.

Definition Error_Handler {A} : M A := fun _ => Abort.
Definition get_uninit : M uninit := fun w => Ret (w_uninit w) w.

(** [malloc]: a block at an address that is not live, or NULL. *)
Definition malloc (b : block) : M ptr := fun w =>
  let l := fresh (dom (w_heap w)) in
  let w1 := set_plan (tail (w_plan w)) w in
  if hd true (w_plan w)
  then Ret (Some l) (set_heap (<[l := b]> (w_heap w)) w1)
  else Ret NULL w1.

Definition free (p : ptr) : M unit := fun w =>
  match p with
  | None => Ret tt w
  | Some l =>
      match w_heap w !! l with
      | Some _ => Ret tt (set_heap (delete l (w_heap w)) w)
      | None => Undef
      end
  end.

Definition load_fil (p : ptr) : M (FIL fil_priv) := fun w =>
  match p with
  | Some l => match w_heap w !! l with Some (BFil f) => Ret f w | _ => Undef end
  | None => Undef
  end.

Definition store_fil (p : ptr) (f : FIL fil_priv) : M unit := fun w =>
  match p with
  | Some l =>
      match w_heap w !! l with
      | Some (BFil _) => Ret tt (set_heap (<[l := BFil f]> (w_heap w)) w)
      | _ => Undef
      end
  | None => Undef
  end.

(** The string at [p] ([strlen] and the [%s] of [sprintf] read it). *)
Definition load_str (p : ptr) : M string := fun w =>
  match p with
  | Some l =>
      match w_heap w !! l with Some (BChars _ (Some s)) => Ret s w | _ => Undef end
  | None => Undef
  end.

(** [sprintf(p, ...)] producing [s]: the characters and the terminator must
    fit in the array. *)
Definition sprintf (p : ptr) (s : string) : M unit := fun w =>
  match p with
  | Some l =>
      match w_heap w !! l with
      | Some (BChars cap _) =>
          if (String.length s <? cap)%nat
          then Ret tt (set_heap (<[l := BChars cap (Some s)]> (w_heap w)) w)
          else Undef
      | _ => Undef
      end
  | None => Undef
  end.

(** *** Calls of the driver *)

Definition call_f_stat (path : string) : M (FRESULT * FILINFO) := fun w =>
  let '(r, fno, v) := f_stat (w_vol w) path in
  Ret (r, fno) (log_event (EvStat path r) (set_vol v w)).

Definition call_f_mkdir (path : string) : M FRESULT := fun w =>
  let '(r, v) := f_mkdir (w_vol w) path in
  Ret r (log_event (EvMkdir path r) (set_vol v w)).

(** A call on the file object at [fp]: the object is loaded, handed to the
    driver and stored back as the driver leaves it. *)
Definition on_fil {A} (fp : ptr)
    (op : vol -> FIL fil_priv -> A * FIL fil_priv * vol) (ev : A -> event) : M A :=
  f ← load_fil fp;
  fun w =>
    let '(a, f', v) := op (w_vol w) f in
    (store_fil fp f' ;; mret a) (log_event (ev a) (set_vol v w)).

Definition call_f_open (fp : ptr) (path : string) (mode : Z) : M FRESULT :=
  on_fil fp (fun v f => f_open v f path mode) (EvOpen path mode).

Definition call_f_read (fp : ptr) (btr : nat) : M (FRESULT * list byte) :=
  on_fil fp (fun v f => let '(r, bs, f', v') := f_read v f btr in ((r, bs), f', v'))
         (fun a => EvRead btr a.1 (length a.2)).

Definition call_f_lseek (fp : ptr) (ofs : Z) : M FRESULT :=
  on_fil fp (fun v f => f_lseek v f ofs) (EvLseek ofs).

Definition call_f_sync (fp : ptr) : M FRESULT := on_fil fp f_sync EvSync.
Definition call_f_close (fp : ptr) : M FRESULT := on_fil fp f_close EvClose.

Definition call_f_opendir (dp : DIR dir_priv) (path : string)
    : M (FRESULT * DIR dir_priv) := fun w =>
  let '(r, dp', v) := f_opendir (w_vol w) dp path in
  Ret (r, dp') (log_event (EvOpendir path r) (set_vol v w)).

Definition call_f_readdir (dp : DIR dir_priv)
    : M (FRESULT * FILINFO * DIR dir_priv) := fun w =>
  let '(r, fno, dp', v) := f_readdir (w_vol w) dp in
  Ret (r, fno, dp') (log_event (EvReaddir r (fname fno)) (set_vol v w)).

Definition call_f_closedir (dp : DIR dir_priv)
    : M (FRESULT * DIR dir_priv) := fun w =>
  let '(r, dp', v) := f_closedir (w_vol w) dp in
  Ret (r, dp') (log_event (EvClosedir r) (set_vol v w)).

(** ** The handle *)

Record File := mkFile {
  _name : ptr;
  _fil : ptr;
  _dir : DIR dir_priv;
  _res : FRESULT
}.

Definition set_name (p : ptr) (f : File) : File := mkFile p (_fil f) (_dir f) (_res f).
Definition set_fil (p : ptr) (f : File) : File := mkFile (_name f) p (_dir f) (_res f).
Definition set_dir (d : DIR dir_priv) (f : File) : File := mkFile (_name f) (_fil f) d (_res f).
Definition set_res (r : FRESULT) (f : File) : File := mkFile (_name f) (_fil f) (_dir f) r.

Definition clear_fil_fs (f : FIL fil_priv) : FIL fil_priv :=
  mkFIL 0 (fil_objsize f) (fil_fptr f) (fil_rest f).
Definition clear_dir_fs (d : DIR dir_priv) : DIR dir_priv := mkDIR 0 (dir_rest d).

(** [File::File(FRESULT result)] *)
Definition File_File (result : FRESULT) : M File :=
  u ← get_uninit;
  mret (mkFile NULL NULL (u_dir u) result).

(** ** SDClass *)

(** [SDClass::exists] *)
Definition SDClass_exists (filepath : string) : M bool :=
  '(r, _) ← call_f_stat filepath;
  mret (if decide (r ≠ FR_OK) then false else true).

(** [SDClass::mkdir] *)
Definition SDClass_mkdir (filepath : string) : M bool :=
  res ← call_f_mkdir filepath;
  mret (if decide (res ≠ FR_OK) then (if decide (res ≠ FR_EXIST) then false else true)
        else true).

(** [SDClass::open]; [mode] is a [uint8_t]. *)
Definition SDClass_open (filepath : string) (mode : Z) : M File :=
  file ← File_File FR_OK;
  p ← malloc (BChars (String.length filepath + 1) None);
  let file := set_name p file in
  (if decide (_name file = NULL) then Error_Handler else mret tt) ;;
  sprintf (_name file) filepath ;;
  u ← get_uninit;
  q ← malloc (BFil (u_fil u));
  let file := set_fil q file in
  (if decide (_fil file = NULL) then Error_Handler else mret tt) ;;
  f ← load_fil (_fil file);
  store_fil (_fil file) (clear_fil_fs f) ;;
  let file := set_dir (clear_dir_fs (_dir file)) file in
  mode ← (if decide (mode = FILE_WRITE)
          then (ex ← SDClass_exists filepath;
                mret (if negb ex then Z.lor mode FA_CREATE_ALWAYS mod 256 else mode))
          else mret mode);
  r ← call_f_open (_fil file) filepath mode;
  let file := set_res r file in
  if decide (_res file ≠ FR_OK) then
    free (_fil file) ;;
    let file := set_fil NULL file in
    '(r, d) ← call_f_opendir (_dir file) filepath;
    let file := set_res r (set_dir d file) in
    if decide (_res file ≠ FR_OK) then
      free (_name file) ;;
      mret (set_name NULL file)
    else mret file
  else mret file.

(** [SDClass::openRoot]; [root] is what [_fatFs.getRoot()] returns, and the
    mode is the default argument of [open], [FA_READ]. *)
Definition SDClass_openRoot (root : string) : M File := SDClass_open root FA_READ.

(** ** File *)

(** The value of an [int8_t] whose storage holds the byte [b]. *)
Definition int8_of_byte (b : byte) : Z :=
  let n := Z.of_N (Byte.to_N b) in
  if n <? 128 then n else n - 256.

(** [File::read()]: [f_read] stores the bytes it read at [&data]; with no
    byte read [data] keeps what it held. *)
Definition File_read (this : File) : M Z :=
  u ← get_uninit;
  '(r, bs) ← call_f_read (_fil this) 1;
  let data := hd (u_data u) bs in
  mret (if decide (r = FR_OK) then int8_of_byte data else -1).

(** [File::close] *)
Definition File_close (this : File) : M File :=
  if decide (_name this ≠ NULL) then
    this ← (if decide (_fil this ≠ NULL) then
              f ← load_fil (_fil this);
              (if decide (fil_fs f ≠ 0)
               then call_f_sync (_fil this) ;; call_f_close (_fil this) ;; mret tt
               else mret tt) ;;
              free (_fil this) ;;
              mret (set_fil NULL this)
            else mret this);
    this ← (if decide (dir_fs (_dir this) ≠ 0) then
              '(_, d) ← call_f_closedir (_dir this);
              mret (set_dir d this)
            else mret this);
    free (_name this) ;;
    mret (set_name NULL this)
  else mret this.

(** [File::position] and [File::size]: the driver's values as [uint32_t]. *)
Definition File_position (this : File) : M Z :=
  f ← load_fil (_fil this);
  mret (f_tell f mod 2 ^ 32).

Definition File_size (this : File) : M Z :=
  f ← load_fil (_fil this);
  mret (f_size f mod 2 ^ 32).

(** [File::seek]; [pos] is a [uint32_t]. *)
Definition File_seek (this : File) (pos : Z) : M bool :=
  sz ← File_size this;
  if decide (pos <= sz) then
    r ← call_f_lseek (_fil this) pos;
    mret (if decide (r ≠ FR_OK) then false else true)
  else mret false.

(** [File::operator bool] *)
Definition File_bool (this : File) : M bool :=
  if decide (_name this = NULL) then mret false
  else if bool_decide (_fil this = NULL) && (dir_fs (_dir this) =? 0) then mret false
  else if decide (_fil this ≠ NULL) then
    f ← load_fil (_fil this);
    mret (negb ((fil_fs f =? 0) && (dir_fs (_dir this) =? 0)))
  else mret true.

(** [File::available]: [n] is a [uint32_t], the result an [int]. *)
Definition File_available (this : File) : M Z :=
  sz ← File_size this;
  ps ← File_position this;
  let n := (sz - ps) mod 2 ^ 32 in
  mret (if decide (n > 0x7FFF) then 0x7FFF else n).

(** A [char *]: a block and an offset into it. *)
Definition cptr := option (loc * nat).

(** [File::name] *)
Definition File_name (this : File) : M cptr :=
  s ← load_str (_name this);
  match _name this, strrchr s slash with
  | Some l, Some i =>
      if Ascii.eqb (char_at s i) slash then mret (Some (l, S i)) else mret (Some (l, i))
  | _, _ => mret None
  end.

(** [File::openNextFile]: each turn of [while (!found)] takes one unit of
    fuel.  The result is the handle returned and [this] as the call leaves
    it ([f_readdir] advances [_dir]). *)
Fixpoint File_openNextFile_loop (fuel : nat) (this filtmp : File) (mode : Z)
    : M (File * File) :=
  match fuel with
  | O => fun _ => OutOfFuel
  | S fuel' =>
      '(res, fno, d) ← call_f_readdir (_dir this);
      let this := set_dir d this in
      if bool_decide (res ≠ FR_OK) || Ascii.eqb (char_at (fname fno) 0) zero then
        mret (set_res res filtmp, this)
      else if Ascii.eqb (char_at (fname fno) 0) dot then
        File_openNextFile_loop fuel' this filtmp mode
      else
        let fn := fname fno in
        name ← load_str (_name this);
        let name_len := String.length name in
        fullPath ← malloc (BChars (name_len + String.length fn + 2) None);
        if decide (fullPath ≠ NULL) then
          (if (0 <? name_len)%nat && Ascii.eqb (char_at name (name_len - 1)) slash
           then sprintf fullPath (name +:+ fn)
           else sprintf fullPath (name +:+ "/" +:+ fn)) ;;
          path ← load_str fullPath;
          filtmp ← SDClass_open path mode;
          free fullPath ;;
          mret (filtmp, this)
        else mret (set_res FR_NOT_ENOUGH_CORE filtmp, this)
  end.

Definition File_openNextFile (fuel : nat) (this : File) (mode : Z) : M (File * File) :=
  filtmp ← File_File FR_OK;
  File_openNextFile_loop fuel this filtmp mode.

(** ** Notions the properties are stated with *)

(** What a run returned, and the driver calls it has made. *)
Definition value {A} (o : outcome A) : option A :=
  match o with Ret a _ => Some a | _ => None end.

Definition trace {A} (o : outcome A) : list event :=
  match o with Ret _ w => w_log w | _ => [] end.

Definition volume_after {A} (o : outcome A) : option vol :=
  match o with Ret _ w => Some (w_vol w) | _ => None end.

(** The file resource of a handle is bound when [_fil] points to a file
    object that the driver has bound to the volume ([obj.fs] is not 0); the
    directory resource is bound when [_dir.obj.fs] is not 0.  These are the
    tests of [operator bool], [close] and [isDirectory]. *)
Definition file_bound (h : File) (w : world) : Prop :=
  exists l f, _fil h = Some l /\ w_heap w !! l = Some (BFil f) /\ fil_fs f <> 0.

Definition dir_bound (h : File) : Prop := dir_fs (_dir h) <> 0.

Definition at_most_one_bound (h : File) (w : world) : Prop :=
  ~ (file_bound h w /\ dir_bound h).

(** [skips d w k d' w']: from the directory object [d] in the world [w],
    [k] calls of [f_readdir] each report an entry whose name starts with a
    dot, and leave the object [d'] and the world [w']. *)
Inductive skips : DIR dir_priv -> world -> nat -> DIR dir_priv -> world -> Prop :=
| skips_O d w : skips d w O d w
| skips_S d w fno d1 w1 k d2 w2 :
    call_f_readdir d w = Ret (FR_OK, fno, d1) w1 ->
    char_at (fname fno) 0 = dot ->
    skips d1 w1 k d2 w2 ->
    skips d w (S k) d2 w2.

End Wrapper.

Arguments Ret {D A}.
Arguments Abort {D A}.
Arguments Undef {D A}.
Arguments OutOfFuel {D A}.

(** ** A reference driver: a volume held in memory *)

(** Modelled from the spec: the FatFs driver is not among the sources; the
    spec (6) lists its calls and (7) its result codes.  Here the calls work
    on a volume that is a list of entries under their absolute paths (in the
    order they were created, which is the order [f_readdir] reports them)
    and a card that may not be ready, with the result codes FatFs documents
    for each call.  [f_lseek] never extends a file: the wrapper does not
    seek past the size. *)
Module RamFs.

Inductive node :=
| NFile (content : list byte)
| NDir.

Record volume := mkVolume {
  ready : bool;
  tree : list (string * node)
}.

Definition lookup (t : list (string * node)) (p : string) : option node :=
  snd <$> List.find (fun e => String.eqb e.1 p) t.

Definition update (t : list (string * node)) (p : string) (n : node) :=
  List.map (fun e => if String.eqb e.1 p then (p, n) else e) t.

Definition is_root (p : string) : bool := String.eqb p "/".

Definition dirname (p : string) : string :=
  match strrchr p slash with
  | Some O => "/"
  | Some i => substring 0 i p
  | None => EmptyString
  end.

Definition basename (p : string) : string :=
  match strrchr p slash with
  | Some i => str_at p (S i)
  | None => p
  end.

Definition is_dir (t : list (string * node)) (p : string) : bool :=
  is_root p || match lookup t p with Some NDir => true | _ => false end.

Definition info (p : string) (n : node) : FILINFO :=
  match n with
  | NFile c => mkFILINFO (basename p) 0 (Z.of_nat (length c))
  | NDir => mkFILINFO (basename p) AM_DIR 0
  end.

Definition no_info : FILINFO := mkFILINFO EmptyString 0 0.

Definition has (mode flag : Z) : bool := negb (Z.land mode flag =? 0).

Definition fil := FIL (string * Z).
Definition dir := DIR (string * nat).

Definition unbind (f : fil) : fil := mkFIL 0 (fil_objsize f) (fil_fptr f) (fil_rest f).
Definition valid (v : volume) (fs : Z) : bool := ready v && negb (fs =? 0).

Definition stat (v : volume) (p : string) : FRESULT * FILINFO * volume :=
  if negb (ready v) then (FR_NOT_READY, no_info, v)
  else if is_root p then (FR_INVALID_NAME, no_info, v)
  else match lookup (tree v) p with
       | Some n => (FR_OK, info p n, v)
       | None => (if is_dir (tree v) (dirname p) then FR_NO_FILE else FR_NO_PATH, no_info, v)
       end.

Definition mkdir (v : volume) (p : string) : FRESULT * volume :=
  if negb (ready v) then (FR_NOT_READY, v)
  else if is_root p then (FR_INVALID_NAME, v)
  else match lookup (tree v) p with
       | Some _ => (FR_EXIST, v)
       | None =>
           if is_dir (tree v) (dirname p)
           then (FR_OK, mkVolume (ready v) (tree v ++ [(p, NDir)]))
           else (FR_NO_PATH, v)
       end.

Definition open (v : volume) (f : fil) (p : string) (mode : Z) : FRESULT * fil * volume :=
  let create :=
    has mode FA_CREATE_ALWAYS || has mode FA_OPEN_ALWAYS || has mode FA_CREATE_NEW in
  let bound (len : nat) : fil := mkFIL 1 (Z.of_nat len) 0 (p, mode) in
  if negb (ready v) then (FR_NOT_READY, unbind f, v)
  else if is_root p then (FR_INVALID_NAME, unbind f, v)
  else match lookup (tree v) p with
       | Some (NFile c) =>
           if create && has mode FA_CREATE_NEW then (FR_EXIST, unbind f, v)
           else if has mode FA_CREATE_ALWAYS
                then (FR_OK, bound O, mkVolume (ready v) (update (tree v) p (NFile [])))
                else (FR_OK, bound (length c), v)
       | Some NDir => (if create then FR_DENIED else FR_NO_FILE, unbind f, v)
       | None =>
           if negb (is_dir (tree v) (dirname p)) then (FR_NO_PATH, unbind f, v)
           else if create
                then (FR_OK, bound O, mkVolume (ready v) (tree v ++ [(p, NFile [])]))
                else (FR_NO_FILE, unbind f, v)
       end.

Definition read (v : volume) (f : fil) (btr : nat) : FRESULT * list byte * fil * volume :=
  if negb (valid v (fil_fs f)) then (FR_INVALID_OBJECT, [], f, v)
  else if negb (has (fil_rest f).2 FA_READ) then (FR_DENIED, [], f, v)
  else match lookup (tree v) (fil_rest f).1 with
       | Some (NFile c) =>
           let bs := take btr (drop (Z.to_nat (fil_fptr f)) c) in
           (FR_OK, bs,
            mkFIL (fil_fs f) (fil_objsize f) (fil_fptr f + Z.of_nat (length bs)) (fil_rest f),
            v)
       | _ => (FR_INT_ERR, [], f, v)
       end.

Definition lseek (v : volume) (f : fil) (ofs : Z) : FRESULT * fil * volume :=
  if negb (valid v (fil_fs f)) then (FR_INVALID_OBJECT, f, v)
  else (FR_OK, mkFIL (fil_fs f) (fil_objsize f) (Z.min ofs (fil_objsize f)) (fil_rest f), v).

Definition sync (v : volume) (f : fil) : FRESULT * fil * volume :=
  if negb (valid v (fil_fs f)) then (FR_INVALID_OBJECT, f, v) else (FR_OK, f, v).

Definition close (v : volume) (f : fil) : FRESULT * fil * volume :=
  if negb (valid v (fil_fs f)) then (FR_INVALID_OBJECT, f, v) else (FR_OK, unbind f, v).

Definition opendir (v : volume) (d : dir) (p : string) : FRESULT * dir * volume :=
  if negb (ready v) then (FR_NOT_READY, mkDIR 0 (dir_rest d), v)
  else if is_dir (tree v) p then (FR_OK, mkDIR 1 (p, O), v)
  else (FR_NO_PATH, mkDIR 0 (dir_rest d), v).

Definition children (t : list (string * node)) (p : string) : list (string * node) :=
  List.filter (fun e => String.eqb (dirname e.1) p) t.

Definition readdir (v : volume) (d : dir) : FRESULT * FILINFO * dir * volume :=
  if negb (valid v (dir_fs d)) then (FR_INVALID_OBJECT, no_info, d, v)
  else match children (tree v) (dir_rest d).1 !! (dir_rest d).2 with
       | Some (p, n) =>
           (FR_OK, info p n, mkDIR (dir_fs d) ((dir_rest d).1, S (dir_rest d).2), v)
       | None => (FR_OK, no_info, d, v)
       end.

Definition closedir (v : volume) (d : dir) : FRESULT * dir * volume :=
  if negb (valid v (dir_fs d)) then (FR_INVALID_OBJECT, d, v)
  else (FR_OK, mkDIR 0 (dir_rest d), v).

#[export] Instance driver : Driver := {|
  vol := volume;
  fil_priv := string * Z;
  dir_priv := string * nat;
  f_stat := stat;
  f_mkdir := mkdir;
  f_open := open;
  f_opendir := opendir;
  f_readdir := readdir;
  f_read := read;
  f_lseek := lseek;
  f_sync := sync;
  f_close := close;
  f_closedir := closedir
|}.

(** A world over this driver: nothing allocated, no call made yet. *)
Definition junk : uninit :=
  mkUninit (mkFIL 0xA5A5 7 3 ("?", 0xFF)) (mkDIR 0 (EmptyString, O)) "A"%byte.

Definition boot (v : volume) (plan : list bool) : world := mkWorld v ∅ plan [] junk.

(** A card with a directory, a file of three bytes in it, a hidden file, a
    file of one byte and a hidden directory; the same card taken out of its
    slot; a blank card. *)
Definition card : volume :=
  mkVolume true
    [("/a", NDir);
     ("/a/f.txt", NFile ["h"%byte; "i"%byte; xff]);
     ("/.hid", NFile []);
     ("/b.txt", NFile [xc8]);
     ("/.Trash", NDir)].

Definition card_removed : volume := mkVolume false (tree card).

Definition blank : volume := mkVolume true [].

(** The handle and the world that [open("/a/f.txt", FILE_READ)] returns on
    the card. *)
Definition f_txt : File :=
  mkFile (Some 1%positive) (Some 2%positive) (mkDIR 0 (EmptyString, O)) FR_OK.

Definition f_txt_world (v : volume) : world :=
  mkWorld v
    (<[2%positive := BFil (mkFIL 1 3 0 ("/a/f.txt", 1))]>
       (<[1%positive := BChars 9 (Some "/a/f.txt")]> ∅))
    [] [EvOpen "/a/f.txt" 1 FR_OK] junk.

(** The handle that [open("/", FILE_READ)] returns on the card, after [i]
    entries have been read, and its world. *)
Definition root_at (i : nat) : File :=
  mkFile (Some 1%positive) NULL (mkDIR 1 ("/", i)) FR_OK.

Definition root_world (plan : list bool) : world :=
  mkWorld card (<[1%positive := BChars 2 (Some "/")]> ∅) plan
    [EvOpendir "/" FR_OK; EvOpen "/" 1 FR_INVALID_NAME] junk.

(** What [open("/nope", FILE_READ)] returns on the card. *)
Definition nope : File := mkFile NULL NULL (mkDIR 0 (EmptyString, O)) FR_NO_PATH.

Definition nope_world : world :=
  mkWorld card ∅ [] [EvOpendir "/nope" FR_NO_PATH; EvOpen "/nope" 1 FR_NO_FILE] junk.

End RamFs.

(** * The rest of File *)

(** What [Serial] is given to print, in the order of the calls. *)
Inductive serial :=
| Print_char (c : ascii)
| Print_str (s : string)
| Print_num (n : Z)
| Println.

(** [File::printTwoDigits]; [v] is a [uint8_t], and the two characters are
    ['0' + v / 10] and ['0' + v % 10]. *)
Definition File_printTwoDigits (v : Z) : list serial :=
  [Print_str (String (ascii_of_N (Z.to_N (48 + v / 10)))
                (String (ascii_of_N (Z.to_N (48 + v mod 10))) EmptyString))].

(** The number a string of decimal digits stands for, if it is one. *)
Definition digit_value (c : ascii) : option Z :=
  let n := Z.of_N (N_of_ascii c) in
  if (48 <=? n) && (n <=? 57) then Some (n - 48) else None.

Fixpoint decimal_value (acc : Z) (s : string) : option Z :=
  match s with
  | EmptyString => Some acc
  | String c s' =>
      match digit_value c with
      | Some d => decimal_value (10 * acc + d) s'
      | None => None
      end
  end.

(** The value of an [int] that an [unsigned int] converts to. *)
Definition int_of_uint (n : Z) : Z :=
  let m := n mod 2 ^ 32 in
  if m <? 2 ^ 31 then m else m - 2 ^ 32.

Section More.
Context {D : Driver}.

(** [File::read(void *buf, size_t len)]: the result, and the bytes that
    [f_read] stored at [buf].  The conditional has the type of [bytesread],
    [unsigned int], and is returned as an [int]. *)
Definition File_read_buf (this : File) (len : nat) : M (Z * list byte) :=
  '(r, bs) ← call_f_read (_fil this) len;
  mret (int_of_uint (if decide (r = FR_OK) then Z.of_nat (length bs) else -1), bs).

(** [File::flush] *)
Definition File_flush (this : File) : M unit :=
  call_f_sync (_fil this) ;; mret tt.

(** [File::peek]: [position() - 1] is computed in [uint32_t]. *)
Definition File_peek (this : File) : M Z :=
  data ← File_read this;
  p ← File_position this;
  File_seek this ((p - 1) mod 2 ^ 32) ;;
  mret data.

(** [File::isDirectory] *)
Definition File_isDirectory (this : File) : M bool :=
  (if decide (_name this = NULL) then Error_Handler else mret tt) ;;
  if decide (dir_fs (_dir this) <> 0) then mret true
  else
    f ← load_fil (_fil this);
    if decide (fil_fs f <> 0) then mret false
    else
      path ← load_str (_name this);
      '(r, fno) ← call_f_stat path;
      if decide (r = FR_OK)
      then (if decide (Z.land (fattrib fno) AM_DIR <> 0) then mret true else mret false)
      else mret false.

(** [File::rewindDirectory]; the result is [this] as the call leaves it. *)
Definition File_rewindDirectory (this : File) : M File :=
  b ← File_isDirectory this;
  if (b : bool) then
    this ← (if decide (dir_fs (_dir this) <> 0)
            then '(_, d) ← call_f_closedir (_dir this); mret (set_dir d this)
            else mret this);
    path ← load_str (_name this);
    '(_, d) ← call_f_opendir (_dir this) path;
    mret (set_dir d this)
  else mret this.

(** The path that [openNextFile] composes for the entry [fn] of the
    directory at [name]: one separator is added unless [name] ends in one. *)
Definition child_path (name fn : string) : string :=
  if (0 <? String.length name)%nat
     && Ascii.eqb (char_at name (String.length name - 1)) slash
  then name +:+ fn
  else name +:+ "/" +:+ fn.

(** The entry name that the most recent [f_readdir] in a log reported. *)
Fixpoint last_readdir (log : list event) : option (FRESULT * string) :=
  match log with
  | [] => None
  | EvReaddir r fn :: _ => Some (r, fn)
  | _ :: log' => last_readdir log'
  end.


(** What FatFs does when [f_open] or [f_opendir] succeeds: the object is
    bound to the volume ([obj.fs] is not 0). *)
Definition binds_on_success : Prop :=
  (forall v f p m, (f_open v f p m).1.1 = FR_OK -> fil_fs (f_open v f p m).1.2 <> 0)
  /\ (forall v d p, (f_opendir v d p).1.1 = FR_OK -> dir_fs (f_opendir v d p).1.2 <> 0).


End More.


(** ** Listing *)

(** What [ls] takes from STM32SD.h, which is not among the sources: the
    flag bits and the accessors of the packed date and time; and the
    members [fdate] and [ftime] of [FILINFO], which the record above does
    not carry. *)
Class Header := {
  LS_DATE : Z;
  LS_SIZE : Z;
  LS_R : Z;
  FAT_YEAR : Z -> Z;
  FAT_MONTH : Z -> Z;
  FAT_DAY : Z -> Z;
  FAT_HOUR : Z -> Z;
  FAT_MINUTE : Z -> Z;
  FAT_SECOND : Z -> Z;
  fdate : FILINFO -> Z;
  ftime : FILINFO -> Z
}.

(** The value of an [int8_t] that an [int] converts to. *)
Definition int8_of_int (x : Z) : Z := (x + 128) mod 256 - 128.

Section Listing.
Context {D : Driver} {HD : Header}.

(** [File::printFatDate] and [File::printFatTime]; the parameter of
    [printTwoDigits] is a [uint8_t]. *)
Definition File_printFatDate (fatDate : Z) : list serial :=
  [Print_num (FAT_YEAR fatDate); Print_char "-"]
  ++ File_printTwoDigits (FAT_MONTH fatDate mod 256)
  ++ [Print_char "-"]
  ++ File_printTwoDigits (FAT_DAY fatDate mod 256).

Definition File_printFatTime (fatTime : Z) : list serial :=
  File_printTwoDigits (FAT_HOUR fatTime mod 256)
  ++ [Print_char ":"]
  ++ File_printTwoDigits (FAT_MINUTE fatTime mod 256)
  ++ [Print_char ":"]
  ++ File_printTwoDigits (FAT_SECOND fatTime mod 256).

(** The loop of [ls] that prints the indent:
    [for (int8_t i = 0; i < indent; i++) Serial.print(' ')], with [indent]
    a [uint8_t]; each turn takes one unit of fuel. *)
Fixpoint File_ls_indent (fuel : nat) (i indent : Z) (out : list serial)
    : M (list serial) :=
  match fuel with
  | O => fun _ => OutOfFuel
  | S fuel' =>
      if decide (i < indent)
      then File_ls_indent fuel' (int8_of_int (i + 1)) indent (out ++ [Print_char " "])
      else mret out
  end.

(** [File::ls]; [flags] and [indent] are [uint8_t].  Each turn of
    [while (1)] and each nested call takes one unit of fuel.  The result is
    [this] as the call leaves it and what [Serial] has been given, after
    [out]. *)
Fixpoint File_ls (fuel : nat) (flags indent : Z) (this : File) (out : list serial)
    : M (File * list serial) :=
  match fuel with
  | O => fun _ => OutOfFuel
  | S fuel' =>
      '(res, fno, d) ← call_f_readdir (_dir this);
      let this := set_dir d this in
      if bool_decide (res <> FR_OK) || Ascii.eqb (char_at (fname fno) 0) zero then
        mret (this, out)
      else if Ascii.eqb (char_at (fname fno) 0) dot then
        File_ls fuel' flags indent this out
      else
        let fn := fname fno in
        out ← File_ls_indent fuel' 0 indent out;
        let out := out ++ [Print_str fn] in
        if decide (Z.land (fattrib fno) AM_DIR = 0) then
          let out :=
            if decide (Z.land flags LS_DATE <> 0)
            then out ++ [Print_char " "] ++ File_printFatDate (fdate fno)
                     ++ [Print_char " "] ++ File_printFatTime (ftime fno)
            else out in
          let out :=
            if decide (Z.land flags LS_SIZE <> 0)
            then out ++ [Print_char " "; Print_num (fsize fno)]
            else out in
          File_ls fuel' flags indent this (out ++ [Println])
        else if decide (Z.land flags LS_R <> 0) then
          name ← load_str (_name this);
          fullPath ← malloc (BChars (String.length name + 1 + String.length fn + 1) None);
          if decide (fullPath <> NULL) then
            sprintf fullPath (name +:+ "/" +:+ fn) ;;
            path ← load_str fullPath;
            filtmp ← SDClass_open path FA_READ;
            b ← File_bool filtmp;
            out ← (if (b : bool) then
                     '(filtmp, out) ← File_ls fuel' flags ((indent + 2) mod 256) filtmp
                                        (out ++ [Println]);
                     File_close filtmp ;;
                     mret out
                   else
                     mret (out ++ [Print_str fn; Println;
                                   Print_str "Error to open dir: "; Print_str fn;
                                   Println]));
            free fullPath ;;
            File_ls fuel' flags indent this out
          else
            File_ls fuel' flags indent this
              (out ++ [Println; Print_str "Error to allocate memory!"])
        else File_ls fuel' flags indent this out
  end.

(** A call of [f_readdir] in the log. *)
Definition is_readdir (e : event) : Prop :=
  match e with EvReaddir _ _ => True | _ => False end.


End Listing.


(** ** More inputs on the reference driver *)
Module Card.

#[local] Existing Instance RamFs.driver.

(** A header: the flag bits 1, 2 and 4, the FAT layout of the packed date
    and time, and entries all dated 1980-01-01 00:00:00. *)
Definition header : Header := {|
  LS_DATE := 1;
  LS_SIZE := 2;
  LS_R := 4;
  FAT_YEAR := fun d => 1980 + Z.shiftr d 9;
  FAT_MONTH := fun d => Z.land (Z.shiftr d 5) 0xF;
  FAT_DAY := fun d => Z.land d 0x1F;
  FAT_HOUR := fun t => Z.shiftr t 11;
  FAT_MINUTE := fun t => Z.land (Z.shiftr t 5) 0x3F;
  FAT_SECOND := fun t => 2 * Z.land t 0x1F;
  fdate := fun _ => 0x21;
  ftime := fun _ => 0
|}.

(** The world of the handle [RamFs.f_txt] on a file at [path] of [size]
    bytes, open for reading and [pos] bytes in. *)
Definition reading (path : string) (size pos : Z) : world :=
  mkWorld RamFs.card
    (<[2%positive := BFil (mkFIL 1 size pos (path, 1))]>
       (<[1%positive := BChars (String.length path + 1) (Some path)]> ∅))
    [] [] RamFs.junk.


(** A card with a directory in a directory, and the handle of "/d" on it
    with its world. *)
Definition nested : RamFs.volume :=
  RamFs.mkVolume true
    [("/d", RamFs.NDir);
     ("/d/e", RamFs.NDir);
     ("/d/e/g.txt", RamFs.NFile [x01]);
     ("/d/h.txt", RamFs.NFile [])].

Definition d_dir : File :=
  mkFile (Some 1%positive) NULL (mkDIR 1 ("/d", O)) FR_OK.

Definition d_world : world :=
  mkWorld nested (<[1%positive := BChars 3 (Some "/d")]> ∅) [] [] RamFs.junk.

End Card.


(** * Properties *)

(** ** C strings *)

Lemma strrchr_None (s : string) (c : ascii) :
  strrchr s c = None <-> ~ In c (list_ascii_of_string s).
Proof.
  induction s as [|a s IH]; simpl.
  - tauto.
  - destruct (strrchr s c) as [i|].
    + split; [discriminate|]. intros H. exfalso.
      assert (Some i = None) as E by (apply IH; tauto). discriminate.
    + destruct (Ascii.eqb_spec a c) as [->|Hne].
      * split; [discriminate|]. intros H. exfalso. apply H. now left.
      * split; [|reflexivity]. intros _ [E|H]; [congruence|].
        now apply IH in H.
Qed.

Lemma strrchr_last (pre suf : string) (c : ascii) :
  ~ In c (list_ascii_of_string suf) ->
  strrchr (pre +:+ String c suf) c = Some (String.length pre).
Proof.
  intros H. induction pre as [|a pre IH]; simpl.
  - apply strrchr_None in H. rewrite H. now rewrite Ascii.eqb_refl.
  - now rewrite IH.
Qed.

Lemma char_at_app (pre suf : string) (c : ascii) :
  char_at (pre +:+ String c suf) (String.length pre) = c.
Proof. unfold char_at. induction pre as [|a pre IH]; simpl; [reflexivity|exact IH]. Qed.

Section Properties.
Context {D : Driver}.

(** ** Running the monad *)

Lemma bind_Ret {A B} (m : M A) (k : A -> M B) (w : world) (b : B) (w' : world) :
  (m ≫= k) w = Ret b w' -> exists a w1, m w = Ret a w1 /\ k a w1 = Ret b w'.
Proof.
  unfold mbind, M_bind. destruct (m w) as [a w1| | |]; try discriminate.
  intros H. now exists a, w1.
Qed.

Lemma bind_run {A B} (m : M A) (k : A -> M B) (w : world) (a : A) (w1 : world) :
  m w = Ret a w1 -> (m ≫= k) w = k a w1.
Proof. unfold mbind, M_bind. now intros ->. Qed.

(** *** What each step returns *)

Lemma malloc_Ret (b : block) (w : world) (p : ptr) (w1 : world) :
  malloc b w = Ret p w1 ->
  (p = NULL /\ w1 = set_plan (tail (w_plan w)) w)
  \/ (exists l, p = Some l /\ w_heap w !! l = None
        /\ w1 = set_heap (<[l := b]> (w_heap w)) (set_plan (tail (w_plan w)) w)).
Proof.
  unfold malloc. destruct (hd true (w_plan w)); intros [= <- <-].
  - right. eexists. split; [reflexivity|]. split; [|reflexivity].
    apply not_elem_of_dom, is_fresh.
  - now left.
Qed.

Lemma free_Ret (l : loc) (w : world) (u : unit) (w1 : world) :
  free (Some l) w = Ret u w1 ->
  is_Some (w_heap w !! l) /\ w1 = set_heap (delete l (w_heap w)) w.
Proof.
  unfold free. destruct (w_heap w !! l) eqn:E; [|discriminate].
  intros [=]; subst. split; [now eexists|reflexivity].
Qed.

Lemma load_fil_Ret (p : ptr) (w : world) (f : FIL fil_priv) (w1 : world) :
  load_fil p w = Ret f w1 ->
  w1 = w /\ exists l, p = Some l /\ w_heap w !! l = Some (BFil f).
Proof.
  unfold load_fil. destruct p as [l|]; [|discriminate].
  destruct (w_heap w !! l) as [[|f0]|] eqn:E; try discriminate.
  intros [= <- <-]. split; [reflexivity|]. now exists l.
Qed.

Lemma load_fil_run (l : loc) (w : world) (f : FIL fil_priv) :
  w_heap w !! l = Some (BFil f) -> load_fil (Some l) w = Ret f w.
Proof. unfold load_fil. now intros ->. Qed.

Lemma store_fil_run (l : loc) (w : world) (f0 f : FIL fil_priv) :
  w_heap w !! l = Some (BFil f0) ->
  store_fil (Some l) f w = Ret tt (set_heap (<[l := BFil f]> (w_heap w)) w).
Proof. unfold store_fil. now intros ->. Qed.

Lemma load_str_run (l : loc) (w : world) (cap : nat) (s : string) :
  w_heap w !! l = Some (BChars cap (Some s)) -> load_str (Some l) w = Ret s w.
Proof. unfold load_str. now intros ->. Qed.

Lemma sprintf_run (l : loc) (w : world) (cap : nat) (o : option string) (s : string) :
  w_heap w !! l = Some (BChars cap o) ->
  (String.length s < cap)%nat ->
  sprintf (Some l) s w = Ret tt (set_heap (<[l := BChars cap (Some s)]> (w_heap w)) w).
Proof.
  unfold sprintf. intros -> H. apply Nat.ltb_lt in H. now rewrite H.
Qed.

Lemma on_fil_run {A} (l : loc) (w : world) (f : FIL fil_priv)
    (op : vol -> FIL fil_priv -> A * FIL fil_priv * vol) (ev : A -> event) :
  w_heap w !! l = Some (BFil f) ->
  on_fil (Some l) op ev w =
    Ret (op (w_vol w) f).1.1
        (set_heap (<[l := BFil (op (w_vol w) f).1.2]> (w_heap w))
           (log_event (ev (op (w_vol w) f).1.1) (set_vol (op (w_vol w) f).2 w))).
Proof.
  intros H. unfold on_fil. rewrite (bind_run _ _ _ _ _ (load_fil_run _ _ _ H)).
  destruct (op (w_vol w) f) as [[a f'] v]. simpl.
  unfold mbind, M_bind, store_fil. simpl. now rewrite H.
Qed.

#[local] Arguments malloc : simpl never.
#[local] Arguments free : simpl never.
#[local] Arguments load_fil : simpl never.
#[local] Arguments store_fil : simpl never.
#[local] Arguments load_str : simpl never.
#[local] Arguments sprintf : simpl never.
#[local] Arguments on_fil : simpl never.
#[local] Arguments SDClass_open : simpl never.

Ltac wsimpl := unfold set_heap, set_plan, set_vol, log_event in *; simpl in *.

(** Every return of [open]: the two blocks it allocated, the mode [m] it
    gave to [f_open] after the calls [evs], and the three ways out. *)
Lemma open_Ret (path : string) (mode : Z) (w : world) (h : File) (w' : world) :
  SDClass_open path mode w = Ret h w' ->
  exists l1 l2 evs m r f' d,
    w_heap w !! l1 = None /\ w_heap w !! l2 = None /\ l1 <> l2
    /\ (evs, m) =
         (if decide (mode = FILE_WRITE)
          then ([EvStat path (f_stat (w_vol w) path).1.1],
                if decide ((f_stat (w_vol w) path).1.1 <> FR_OK)
                then Z.lor mode FA_CREATE_ALWAYS mod 256 else mode)
          else ([], mode))
    /\ ((r = FR_OK
         /\ h = mkFile (Some l1) (Some l2) (clear_dir_fs (u_dir (w_uninit w))) FR_OK
         /\ w_log w' = EvOpen path m r :: evs ++ w_log w
         /\ w_heap w' =
              <[l2 := BFil f']>
                (<[l1 := BChars (String.length path + 1) (Some path)]> (w_heap w)))
        \/ (r <> FR_OK
            /\ exists r2,
                w_log w' = EvOpendir path r2 :: EvOpen path m r :: evs ++ w_log w
                /\ ((r2 = FR_OK /\ h = mkFile (Some l1) NULL d FR_OK
                     /\ w_heap w' =
                          <[l1 := BChars (String.length path + 1) (Some path)]> (w_heap w))
                    \/ (r2 <> FR_OK /\ h = mkFile NULL NULL d r2
                        /\ w_heap w' = w_heap w)))).
Proof.
  intros H. unfold SDClass_open in H.
  apply bind_Ret in H as (file & w1 & H1 & H).
  unfold File_File, get_uninit in H1. injection H1 as <- <-.
  apply bind_Ret in H as (p & w1 & H1 & H).
  apply malloc_Ret in H1 as [[-> ->]|(l1 & -> & Hl1 & ->)]; [discriminate H|].
  apply bind_Ret in H as ([] & w1 & H1 & H). simpl in H1. injection H1 as <-.
  apply bind_Ret in H as ([] & w1 & H1 & H). simpl in H1.
  erewrite sprintf_run in H1; [ | simpl; apply lookup_insert_eq | lia ].
  injection H1 as <-. wsimpl. rewrite insert_insert_eq in H.
  apply bind_Ret in H as (u & w1 & H1 & H). injection H1 as <- <-.
  apply bind_Ret in H as (p & w1 & H1 & H).
  apply malloc_Ret in H1 as [[-> ->]|(l2 & -> & Hl2 & ->)]; [discriminate H|].
  wsimpl.
  assert (l1 <> l2) as Hne by (intros ->; now rewrite lookup_insert_eq in Hl2).
  rewrite lookup_insert_ne in Hl2 by exact Hne.
  apply bind_Ret in H as ([] & w1 & H1 & H). injection H1 as <-.
  erewrite bind_run in H; [|apply load_fil_run; simpl; apply lookup_insert_eq].
  erewrite bind_run in H; [|eapply store_fil_run; simpl; apply lookup_insert_eq].
  wsimpl. rewrite insert_insert_eq in H.
  apply bind_Ret in H as (m & w1 & H1 & H).
  set (r0 := (f_stat (w_vol w) path).1.1).
  assert (exists evs v1,
    (evs, m) = (if decide (mode = FILE_WRITE)
                then ([EvStat path r0],
                      if decide (r0 <> FR_OK)
                      then Z.lor mode FA_CREATE_ALWAYS mod 256 else mode)
                else ([], mode))
    /\ w1 = mkWorld v1
              (<[l2 := BFil (clear_fil_fs (u_fil (w_uninit w)))]>
                 (<[l1 := BChars (String.length path + 1) (Some path)]> (w_heap w)))
              (tail (tail (w_plan w))) (evs ++ w_log w) (w_uninit w))
    as (evs & v1 & Hpol & ->).
  { destruct (decide (mode = FILE_WRITE)) as [Hm|Hm].
    - unfold SDClass_exists, call_f_stat, mbind, M_bind, mret, M_ret in H1.
      wsimpl. subst r0.
      destruct (f_stat (w_vol w) path) as [[r1 fno] v1]. wsimpl.
      injection H1 as <- <-. exists [EvStat path r1], v1. split; [|reflexivity].
      now destruct (decide (r1 <> FR_OK)).
    - injection H1 as <- <-. now exists [], (w_vol w). }
  clear H1. apply bind_Ret in H as (r_ & w1 & H1 & H).
  unfold call_f_open in H1.
  erewrite on_fil_run in H1; [|simpl; apply lookup_insert_eq].
  wsimpl. rewrite insert_insert_eq in H1.
  destruct (f_open v1 (clear_fil_fs (u_fil (w_uninit w))) path m) as [[r f'] v2].
  wsimpl. injection H1 as <- <-.
  exists l1, l2, evs, m, r, f'.
  destruct (decide (r <> FR_OK)) as [Hr|Hr].
  - apply bind_Ret in H as ([] & w1 & H1 & H).
    apply free_Ret in H1 as [_ ->]. wsimpl.
    rewrite delete_insert_id in H by (now rewrite lookup_insert_ne).
    apply bind_Ret in H as ([r2_ d_] & w1 & H1 & H).
    unfold call_f_opendir in H1. wsimpl.
    destruct (f_opendir v2 (clear_dir_fs (u_dir (w_uninit w))) path) as [[r2 d] v3].
    injection H1 as <- <- <-. exists d.
    split; [exact Hl1|]. split; [exact Hl2|]. split; [exact Hne|]. split; [exact Hpol|].
    right. split; [exact Hr|]. exists r2.
    destruct (decide (r2 <> FR_OK)) as [Hr2|Hr2].
    + apply bind_Ret in H as ([] & w1 & H1 & H).
      apply free_Ret in H1 as [_ ->]. wsimpl.
      rewrite delete_insert_id in H by exact Hl1.
      injection H as <- <-. simpl. split; [reflexivity|]. right. now split.
    + injection H as <- <-. simpl. split; [reflexivity|]. left.
      assert (r2 = FR_OK) as -> by (destruct (decide (r2 = FR_OK)); [done|contradiction]).
      now split.
  - injection H as <- <-. exists (u_dir (w_uninit w)).
    split; [exact Hl1|]. split; [exact Hl2|]. split; [exact Hne|]. split; [exact Hpol|].
    left. assert (r = FR_OK) as -> by (destruct (decide (r = FR_OK)); [done|contradiction]).
    simpl. now split.
Qed.

(** Every return of [close]: nothing happens to a handle without a path;
    otherwise the path and the file object are released and both pointers
    are null. *)
Lemma close_Ret (this : File) (w : world) (h : File) (w' : world) :
  File_close this w = Ret h w' ->
  (_name this = NULL /\ h = this /\ w' = w)
  \/ (exists l, _name this = Some l /\ _name h = NULL /\ _fil h = NULL
        /\ w_heap w' =
             delete l (match _fil this with
                       | Some l2 => delete l2 (w_heap w)
                       | None => w_heap w
                       end)).
Proof.
  intros H. unfold File_close in H.
  destruct (decide (_name this <> NULL)) as [Hn|Hn].
  - right. destruct (_name this) as [l|] eqn:En; [clear Hn|contradiction].
    exists l. split; [reflexivity|].
    apply bind_Ret in H as (t1 & w1 & H1 & H).
    assert (_name t1 = Some l /\ _fil t1 = NULL
            /\ w_heap w1 = match _fil this with
                           | Some l2 => delete l2 (w_heap w)
                           | None => w_heap w
                           end) as (Hn1 & Hf1 & Hh1).
    { destruct (decide (_fil this <> NULL)) as [Hf|Hf].
      - destruct (_fil this) as [l2|] eqn:Ef; [clear Hf|contradiction].
        apply bind_Ret in H1 as (f & w2 & H2 & H1).
        apply load_fil_Ret in H2 as (-> & l2' & [= <-] & Hl2).
        apply bind_Ret in H1 as ([] & w2 & H2 & H1).
        apply bind_Ret in H1 as ([] & w3 & H3 & H1).
        apply free_Ret in H3 as [_ ->]. injection H1 as <- <-.
        simpl. split; [exact En|]. split; [reflexivity|].
        destruct (decide (fil_fs f <> 0)).
        + apply bind_Ret in H2 as (r1 & w3 & H3 & H2).
          apply bind_Ret in H2 as (r2 & w4 & H4 & H2).
          injection H2 as <-.
          unfold call_f_sync in H3. erewrite on_fil_run in H3 by exact Hl2.
          injection H3 as _ <-.
          unfold call_f_close in H4.
          erewrite on_fil_run in H4 by (simpl; apply lookup_insert_eq).
          injection H4 as _ <-. simpl.
          now rewrite !delete_insert_eq.
        + now injection H2 as <-.
      - injection H1 as <- <-. split; [exact En|].
        destruct (_fil this); [exfalso; apply Hf; discriminate|]. now split. }
    apply bind_Ret in H as (t2 & w2 & H2 & H).
    assert (_name t2 = Some l /\ _fil t2 = NULL /\ w_heap w2 = w_heap w1)
      as (Hn2 & Hf2 & Hh2).
    { destruct (decide (dir_fs (_dir t1) <> 0)).
      - apply bind_Ret in H2 as ([r d] & w3 & H3 & H2).
        injection H2 as <- <-. unfold call_f_closedir in H3.
        destruct (f_closedir (w_vol w1) (_dir t1)) as [[r' d'] v'].
        injection H3 as _ _ <-. now simpl.
      - now injection H2 as <- <-. }
    apply bind_Ret in H as ([] & w3 & H3 & H).
    rewrite Hn2 in H3. apply free_Ret in H3 as [_ ->].
    injection H as <- <-. simpl. rewrite Hh2, Hh1. now split.
  - left. injection H as <- <-.
    destruct (_name this); [exfalso; apply Hn; discriminate|]. now split.
Qed.

(** C10. For a handle whose owned path is the live string [s]: [name()]
    returns the pointer just past the last '/' of [s], where the rest of the
    path starts, and the null pointer when [s] has no '/'. *)
Theorem name_after_last_slash (this : File) (w : world) (l : loc) (cap : nat) (s : string) :
  _name this = Some l ->
  w_heap w !! l = Some (BChars cap (Some s)) ->
  (forall pre suf,
      s = pre +:+ String slash suf ->
      ~ In slash (list_ascii_of_string suf) ->
      File_name this w = Ret (Some (l, S (String.length pre))) w
      /\ str_at s (S (String.length pre)) = suf)
  /\ (~ In slash (list_ascii_of_string s) -> File_name this w = Ret None w).
Proof.
  intros Hn Hl.
  assert (load_str (_name this) w = Ret s w) as Hs.
  { unfold load_str. now rewrite Hn, Hl. }
  split.
  - intros pre suf -> Hsuf. split.
    + unfold File_name. rewrite (bind_run _ _ _ _ _ Hs), Hn.
      rewrite (strrchr_last _ _ _ Hsuf), char_at_app.
      unfold slash at 2. now rewrite Ascii.eqb_refl.
    + clear. induction pre as [|a pre IH]; simpl; [now destruct suf|exact IH].
  - intros Hno. unfold File_name. rewrite (bind_run _ _ _ _ _ Hs), Hn.
    apply strrchr_None in Hno. now rewrite Hno.
Qed.

Lemma File_bool_null (h : File) (w : world) :
  _name h = NULL -> File_bool h w = Ret false w.
Proof. unfold File_bool. intros ->. reflexivity. Qed.

(** The handles [open] returns: without a path there is no file object,
    and with a file object the directory is not bound. *)
Lemma open_shape (path : string) (mode : Z) (w : world) (h : File) (w' : world) :
  SDClass_open path mode w = Ret h w' ->
  (_name h = NULL -> _fil h = NULL) /\ (_fil h = NULL \/ dir_fs (_dir h) = 0).
Proof.
  intros H. apply open_Ret in H as (l1 & l2 & evs & m & r & f' & d & _ & _ & _ & _ & H).
  destruct H as [(_ & -> & _)|(_ & r2 & _ & [(_ & -> & _)|(_ & -> & _)])]; simpl;
    split; auto; discriminate.
Qed.

Lemma at_most_one_bound_intro (h : File) (w : world) :
  _fil h = NULL \/ dir_fs (_dir h) = 0 -> at_most_one_bound h w.
Proof.
  intros [H|H] [(l & f & Hf & _) Hd].
  - rewrite H in Hf. discriminate.
  - now apply Hd.
Qed.

(** C1. When the file-open attempt of [open] fails and the directory-open
    attempt after it fails too, the handle returned has a null path and a
    null file object, both blocks have been released (the heap is what it
    was before the call), and the handle converts to false. *)
Theorem open_both_attempts_fail (path : string) (mode : Z) (w : world) (h : File)
    (w' : world) (m : Z) (r1 r2 : FRESULT) (evs : list event) :
  SDClass_open path mode w = Ret h w' ->
  w_log w' = EvOpendir path r2 :: EvOpen path m r1 :: evs ->
  r1 <> FR_OK ->
  r2 <> FR_OK ->
  _name h = NULL /\ _fil h = NULL /\ w_heap w' = w_heap w
  /\ File_bool h w' = Ret false w'.
Proof.
  intros H Hlog Hr1 Hr2.
  apply open_Ret in H as (l1 & l2 & evs' & m' & r & f' & d & _ & _ & _ & _ & H).
  destruct H as [(_ & _ & Hl & _)|(_ & r2' & Hl & H)].
  - rewrite Hl in Hlog. discriminate.
  - rewrite Hl in Hlog. injection Hlog as -> _ _ _.
    destruct H as [(-> & _)|(_ & -> & Hh)]; [contradiction|].
    split; [reflexivity|]. split; [reflexivity|]. split; [exact Hh|].
    now apply File_bool_null.
Qed.

(** C6. After a [close] that returns, a second [close] changes neither the
    handle nor the world (no driver call, nothing released), and the path is
    null; the file pointer is null as well, for every handle whose file
    pointer is null whenever its path is (as for all handles the wrapper
    makes). *)
Theorem close_twice (this : File) (w : world) (h1 : File) (w1 : world) :
  File_close this w = Ret h1 w1 ->
  File_close h1 w1 = Ret h1 w1
  /\ _name h1 = NULL
  /\ ((_name this = NULL -> _fil this = NULL) -> _fil h1 = NULL).
Proof.
  intros H.
  assert (_name h1 = NULL /\ ((_name this = NULL -> _fil this = NULL) -> _fil h1 = NULL))
    as [Hn Hf].
  { apply close_Ret in H as [(Hn & -> & ->)|(l & _ & Hn & Hf & _)]; auto. }
  split; [|now split].
  unfold File_close. rewrite Hn.
  destruct (decide (NULL <> NULL)) as [Hc|_]; [contradiction|reflexivity].
Qed.

Lemma File_size_Ret (this : File) (w : world) (sz : Z) (w' : world) :
  File_size this w = Ret sz w' ->
  w' = w /\ exists l f, _fil this = Some l /\ w_heap w !! l = Some (BFil f)
                        /\ sz = f_size f mod 2 ^ 32.
Proof.
  unfold File_size. intros H. apply bind_Ret in H as (f & w1 & H1 & H).
  apply load_fil_Ret in H1 as (-> & l & Hl & Hf). injection H as <- <-.
  split; [reflexivity|]. now exists l, f.
Qed.

Lemma File_position_Ret (this : File) (w : world) (ps : Z) (w' : world) :
  File_position this w = Ret ps w' ->
  w' = w /\ exists l f, _fil this = Some l /\ w_heap w !! l = Some (BFil f)
                        /\ ps = f_tell f mod 2 ^ 32.
Proof.
  unfold File_position. intros H. apply bind_Ret in H as (f & w1 & H1 & H).
  apply load_fil_Ret in H1 as (-> & l & Hl & Hf). injection H as <- <-.
  split; [reflexivity|]. now exists l, f.
Qed.

(** C8. For a handle on a live file object whose position does not exceed
    its size, [available()] is [min(size() - position(), 0x7FFF)], which is
    not negative. *)
Theorem available_min (this : File) (w : world) (sz ps : Z) :
  File_size this w = Ret sz w ->
  File_position this w = Ret ps w ->
  ps <= sz ->
  File_available this w = Ret (Z.min (sz - ps) 0x7FFF) w
  /\ 0 <= Z.min (sz - ps) 0x7FFF.
Proof.
  intros Hs Hp Hle. unfold File_available.
  rewrite (bind_run _ _ _ _ _ Hs), (bind_run _ _ _ _ _ Hp).
  apply File_size_Ret in Hs as (_ & l & f & _ & _ & Hs).
  apply File_position_Ret in Hp as (_ & l' & f0 & _ & _ & Hp).
  assert (0 <= sz < 2 ^ 32) by (subst sz; apply Z.mod_pos_bound; lia).
  assert (0 <= ps < 2 ^ 32) by (subst ps; apply Z.mod_pos_bound; lia).
  rewrite Z.mod_small by lia.
  split; [|lia].
  destruct (decide (sz - ps > 32767)); unfold mret, M_ret; f_equal; lia.
Qed.

(** [mkdir] returns true exactly when the driver's [f_mkdir] returns
    [FR_OK] or [FR_EXIST]. *)
Lemma mkdir_Ret (path : string) (w : world) :
  exists b w',
    SDClass_mkdir path w = Ret b w'
    /\ w_log w' = EvMkdir path (f_mkdir (w_vol w) path).1 :: w_log w
    /\ w_vol w' = (f_mkdir (w_vol w) path).2
    /\ (b = true <->
        (f_mkdir (w_vol w) path).1 = FR_OK \/ (f_mkdir (w_vol w) path).1 = FR_EXIST).
Proof.
  unfold SDClass_mkdir, call_f_mkdir, mbind, M_bind, mret, M_ret.
  destruct (f_mkdir (w_vol w) path) as [r v]. simpl.
  eexists _, _. split; [reflexivity|]. split; [reflexivity|]. split; [reflexivity|].
  destruct (decide (r <> FR_OK)) as [H1|H1].
  - destruct (decide (r <> FR_EXIST)) as [H2|H2].
    + split; [discriminate|]. intros [?|?]; contradiction.
    + split; [|reflexivity]. intros _. right.
      destruct (decide (r = FR_EXIST)); [done|contradiction].
  - split; [|reflexivity]. intros _. left.
    destruct (decide (r = FR_OK)); [done|contradiction].
Qed.

(** C4, as the code has it.  For a handle on a live file object and a
    [uint32_t] position: [seek(pos)] returns true exactly when [pos] does
    not exceed [size()] and the driver's [f_lseek] returns [FR_OK]; when
    [pos] exceeds [size()] nothing is called and nothing changes, the
    position included; after a seek that returned true, [position()] is
    [pos] once the driver has left the file pointer there. *)
Theorem seek_true_iff (this : File) (w : world) (l : loc) (f : FIL fil_priv) (pos : Z) :
  _fil this = Some l ->
  w_heap w !! l = Some (BFil f) ->
  0 <= pos < 2 ^ 32 ->
  exists b w',
    File_seek this pos w = Ret b w'
    /\ (b = true <->
        pos <= f_size f mod 2 ^ 32 /\ (f_lseek (w_vol w) f pos).1.1 = FR_OK)
    /\ (pos > f_size f mod 2 ^ 32 -> w' = w)
    /\ (b = true -> f_tell (f_lseek (w_vol w) f pos).1.2 = pos ->
        File_position this w' = Ret pos w').
Proof.
  intros Hf Hl Hpos.
  assert (File_size this w = Ret (f_size f mod 2 ^ 32) w) as Hs.
  { unfold File_size. rewrite Hf. now rewrite (bind_run _ _ _ _ _ (load_fil_run _ _ _ Hl)). }
  unfold File_seek. rewrite (bind_run _ _ _ _ _ Hs).
  destruct (decide (pos <= f_size f mod 2 ^ 32)) as [Hle|Hgt].
  - unfold call_f_lseek. rewrite Hf.
    rewrite (bind_run _ _ _ _ _ (on_fil_run _ _ _ _ _ Hl)).
    destruct (f_lseek (w_vol w) f pos) as [[r f'] v']. simpl.
    eexists _, _. split; [reflexivity|]. split; [|split].
    + destruct (decide (r <> FR_OK)) as [Hr|Hr].
      * split; [discriminate|]. intros [_ ?]. contradiction.
      * split; [|reflexivity]. intros _. split; [exact Hle|].
        destruct (decide (r = FR_OK)); [done|contradiction].
    + lia.
    + intros _ Ht. unfold File_position. rewrite Hf.
      erewrite bind_run; [|apply load_fil_run; simpl; apply lookup_insert_eq].
      unfold mret, M_ret. f_equal. rewrite Ht. apply Z.mod_small. lia.
  - exists false, w. split; [reflexivity|]. split; [|split].
    + split; [discriminate|]. intros [? _]. contradiction.
    + reflexivity.
    + discriminate.
Qed.

(** The mode [open] gives to [f_open]: the caller's mode with
    [FA_CREATE_ALWAYS] added when the caller's mode is [FILE_WRITE] itself
    and [f_stat] finds no entry, and the caller's mode in every other case.
    When [f_open] returns [FR_OK] the handle has its path and the file
    object, no directory, and converts to true once the driver has bound
    the object. *)
Lemma open_create_policy (path : string) (mode : Z) (w : world) (h : File) (w' : world) :
  SDClass_open path mode w = Ret h w' ->
  exists m r before after,
    m = (if decide (mode = FILE_WRITE /\ (f_stat (w_vol w) path).1.1 <> FR_OK)
         then Z.lor FILE_WRITE FA_CREATE_ALWAYS else mode)
    /\ before = (if decide (mode = FILE_WRITE)
                 then [EvStat path (f_stat (w_vol w) path).1.1] else [])
    /\ w_log w' = after ++ EvOpen path m r :: before ++ w_log w
    /\ (r <> FR_OK -> exists r2, after = [EvOpendir path r2])
    /\ (r = FR_OK ->
        after = []
        /\ exists l1 l2 f',
            _name h = Some l1 /\ _fil h = Some l2
            /\ w_heap w' !! l2 = Some (BFil f')
            /\ ~ dir_bound h
            /\ (fil_fs f' <> 0 -> file_bound h w' /\ File_bool h w' = Ret true w')).
Proof.
  intros H.
  apply open_Ret in H as (l1 & l2 & evs & m & r & f' & d & _ & _ & _ & Hpol & H).
  assert (m = (if decide (mode = FILE_WRITE /\ (f_stat (w_vol w) path).1.1 <> FR_OK)
               then Z.lor FILE_WRITE FA_CREATE_ALWAYS else mode)
          /\ evs = (if decide (mode = FILE_WRITE)
                    then [EvStat path (f_stat (w_vol w) path).1.1] else []))
    as [Hm Hevs].
  { destruct (decide (mode = FILE_WRITE)) as [->|Hne].
    - injection Hpol as -> ->. split; [|reflexivity].
      destruct (decide ((f_stat (w_vol w) path).1.1 <> FR_OK)) as [Ha|Ha].
      + rewrite decide_True by now split. reflexivity.
      + rewrite decide_False by (intros [_ ?]; contradiction). reflexivity.
    - injection Hpol as -> ->. split; [|reflexivity].
      rewrite decide_False by (intros [? _]; contradiction). reflexivity. }
  exists m, r, evs.
  destruct H as [(-> & -> & Hlog & Hheap)|(Hr & r2 & Hlog & _)].
  - exists []. split; [exact Hm|]. split; [exact Hevs|]. split; [exact Hlog|].
    split; [intros Hc; contradiction|]. intros _. split; [reflexivity|].
    exists l1, l2, f'. split; [reflexivity|]. split; [reflexivity|].
    assert (w_heap w' !! l2 = Some (BFil f')) as Hl2
      by (rewrite Hheap; apply lookup_insert_eq).
    split; [exact Hl2|]. split; [intros Hd; now apply Hd|].
    intros Hfs. split; [now exists l2, f'|].
    unfold File_bool. simpl.
    rewrite (bind_run _ _ _ _ _ (load_fil_run _ _ _ Hl2)).
    unfold mret, M_ret. f_equal.
    apply Z.eqb_neq in Hfs. now rewrite Hfs.
  - exists [EvOpendir path r2]. split; [exact Hm|]. split; [exact Hevs|].
    split; [exact Hlog|]. split; [now exists r2|]. intros Hc. contradiction.
Qed.

Lemma openNextFile_loop_shape (fuel : nat) :
  forall (this filtmp : File) (mode : Z) (w : world) (r this' : File) (w' : world),
    _fil filtmp = NULL ->
    File_openNextFile_loop fuel this filtmp mode w = Ret (r, this') w' ->
    (_name r = NULL -> _fil r = NULL) /\ (_fil r = NULL \/ dir_fs (_dir r) = 0).
Proof.
  induction fuel as [|fuel IH]; intros this filtmp mode w r this' w' Hnull H;
    [discriminate|].
  simpl in H.
  apply bind_Ret in H as ([[res fno] d] & w1 & _ & H).
  destruct (bool_decide (res <> FR_OK) || Ascii.eqb (char_at (fname fno) 0) zero).
  { injection H as <- _ _. simpl. auto. }
  destruct (Ascii.eqb (char_at (fname fno) 0) dot).
  { now apply IH in H. }
  apply bind_Ret in H as (name & w2 & _ & H).
  apply bind_Ret in H as (fullPath & w3 & _ & H).
  destruct (decide (fullPath <> NULL)).
  - apply bind_Ret in H as ([] & w4 & _ & H).
    apply bind_Ret in H as (path & w5 & _ & H).
    apply bind_Ret in H as (h & w6 & Ho & H).
    apply bind_Ret in H as ([] & w7 & _ & H).
    injection H as <- _ _. now apply open_shape in Ho.
  - injection H as <- _ _. simpl. auto.
Qed.

(** Every handle the wrapper makes has a null file pointer when its path is
    null, and [close] keeps it so. *)
Lemma null_path_null_fil :
  (forall res w h w', File_File res w = Ret h w' -> _name h = NULL -> _fil h = NULL)
  /\ (forall path mode w h w',
         SDClass_open path mode w = Ret h w' -> _name h = NULL -> _fil h = NULL)
  /\ (forall fuel this mode w r this' w',
         File_openNextFile fuel this mode w = Ret (r, this') w' ->
         _name r = NULL -> _fil r = NULL)
  /\ (forall this w h w',
         File_close this w = Ret h w' ->
         (_name this = NULL -> _fil this = NULL) -> _name h = NULL -> _fil h = NULL).
Proof.
  split; [|split; [|split]].
  - now intros res w h w' [= <- <-].
  - intros path mode w h w' H. now apply open_shape in H.
  - intros fuel this mode w r this' w' H. unfold File_openNextFile in H.
    apply bind_Ret in H as (filtmp & w1 & [= <- <-] & H).
    eapply openNextFile_loop_shape in H; [|reflexivity]. tauto.
  - intros this w h w' H Hwf _.
    apply close_Ret in H as [(Hn & -> & _)|(l & _ & _ & Hf & _)]; auto.
Qed.

(** C7. The handles made by the constructor, [open], [openRoot] and
    [openNextFile] never have both the file resource and the directory
    resource bound, and [close] keeps it so. *)
Theorem at_most_one_resource_bound :
  (forall res w h w', File_File res w = Ret h w' -> at_most_one_bound h w')
  /\ (forall path mode w h w',
         SDClass_open path mode w = Ret h w' -> at_most_one_bound h w')
  /\ (forall root w h w',
         SDClass_openRoot root w = Ret h w' -> at_most_one_bound h w')
  /\ (forall fuel this mode w r this' w',
         File_openNextFile fuel this mode w = Ret (r, this') w' ->
         at_most_one_bound r w')
  /\ (forall this w h w',
         at_most_one_bound this w ->
         File_close this w = Ret h w' -> at_most_one_bound h w').
Proof.
  split; [|split; [|split; [|split]]].
  - intros res w h w' [= <- <-]. apply at_most_one_bound_intro. now left.
  - intros path mode w h w' H.
    now apply at_most_one_bound_intro, (open_shape _ _ _ _ _ H).
  - intros root w h w' H. unfold SDClass_openRoot in H.
    now apply at_most_one_bound_intro, (open_shape _ _ _ _ _ H).
  - intros fuel this mode w r this' w' H. unfold File_openNextFile in H.
    apply bind_Ret in H as (filtmp & w1 & [= <- <-] & H).
    apply at_most_one_bound_intro.
    eapply openNextFile_loop_shape in H; [|reflexivity]. tauto.
  - intros this w h w' Hamo H.
    apply close_Ret in H as [(_ & -> & ->)|(l & _ & _ & Hf & _)]; [exact Hamo|].
    apply at_most_one_bound_intro. now left.
Qed.

Lemma call_f_readdir_frame (d : DIR dir_priv) (w : world)
    (a : FRESULT * FILINFO * DIR dir_priv) (w1 : world) :
  call_f_readdir d w = Ret a w1 ->
  w_heap w1 = w_heap w /\ w_plan w1 = w_plan w /\ w_uninit w1 = w_uninit w.
Proof.
  unfold call_f_readdir.
  destruct (f_readdir (w_vol w) d) as [[[r fno] d'] v]. now intros [= _ <-].
Qed.

Lemma skips_frame (d : DIR dir_priv) (w : world) (k : nat) (d2 : DIR dir_priv) (w2 : world) :
  skips d w k d2 w2 ->
  w_heap w2 = w_heap w /\ w_plan w2 = w_plan w /\ w_uninit w2 = w_uninit w.
Proof.
  induction 1 as [|d w fno d1 w1 k d2 w2 Hcall _ _ (IHh & IHp & IHu)]; [now split|].
  apply call_f_readdir_frame in Hcall as (Hh & Hp & Hu).
  rewrite IHh, IHp, IHu. now split.
Qed.

Lemma dot_not_zero (s : string) :
  char_at s 0 = dot -> Ascii.eqb (char_at s 0) zero = false /\ Ascii.eqb (char_at s 0) dot = true.
Proof. intros ->. now split. Qed.

(** The loop of [openNextFile] goes past [k] dot entries in [k] turns. *)
Lemma openNextFile_loop_skips (d : DIR dir_priv) (w : world) (k : nat)
    (d2 : DIR dir_priv) (w2 : world) :
  skips d w k d2 w2 ->
  forall (this filtmp : File) (mode : Z) (fuel : nat),
    _dir this = d ->
    File_openNextFile_loop (k + fuel) this filtmp mode w =
    File_openNextFile_loop fuel (set_dir d2 this) filtmp mode w2.
Proof.
  induction 1 as [d w|d w fno d1 w1 k d2 w2 Hcall Hdot _ IH];
    intros this filtmp mode fuel Hd.
  - subst d. now destruct this.
  - subst d. simpl. rewrite (bind_run _ _ _ _ _ Hcall).
    destruct (dot_not_zero _ Hdot) as [-> ->]. simpl.
    now rewrite IH.
Qed.

(** C5. On a directory handle, after any number of dot entries:
    when [f_readdir] reports the end of the entries (or fails),
    [openNextFile] returns a handle that converts to false and stores the
    driver's code; when it reports an entry and the [malloc] for the child
    path returns NULL, [openNextFile] still returns (no [Error_Handler]): a
    handle that converts to false and stores [FR_NOT_ENOUGH_CORE]. *)
Theorem openNextFile_invalid_handle (this : File) (mode : Z) (w : world) (k : nat)
    (d2 : DIR dir_priv) (w2 : world) (res : FRESULT) (fno : FILINFO)
    (d3 : DIR dir_priv) (w3 : world) (fuel : nat) :
  skips (_dir this) w k d2 w2 ->
  call_f_readdir d2 w2 = Ret (res, fno, d3) w3 ->
  (k < fuel)%nat ->
  ((res <> FR_OK \/ char_at (fname fno) 0 = zero) ->
   exists r,
     File_openNextFile fuel this mode w = Ret (r, set_dir d3 this) w3
     /\ _name r = NULL /\ _fil r = NULL /\ _res r = res
     /\ File_bool r w3 = Ret false w3)
  /\ (res = FR_OK -> char_at (fname fno) 0 <> zero -> char_at (fname fno) 0 <> dot ->
      (exists l cap name,
          _name this = Some l /\ w_heap w !! l = Some (BChars cap (Some name))) ->
      hd true (w_plan w) = false ->
      exists r w4,
        File_openNextFile fuel this mode w = Ret (r, set_dir d3 this) w4
        /\ _name r = NULL /\ _fil r = NULL /\ _res r = FR_NOT_ENOUGH_CORE
        /\ File_bool r w4 = Ret false w4
        /\ w_heap w4 = w_heap w).
Proof.
  intros Hskip Hcall Hfuel.
  destruct (skips_frame _ _ _ _ _ Hskip) as (Hh2 & Hp2 & _).
  destruct (call_f_readdir_frame _ _ _ _ Hcall) as (Hh3 & Hp3 & _).
  assert (forall filtmp,
    File_openNextFile_loop fuel this filtmp mode w =
    File_openNextFile_loop (S (fuel - S k)) (set_dir d2 this) filtmp mode w2) as Hloop.
  { intros filtmp. rewrite <- (openNextFile_loop_skips _ _ _ _ _ Hskip) by reflexivity.
    f_equal. lia. }
  unfold File_openNextFile, File_File, get_uninit.
  split.
  - intros Hend. eexists. split.
    + erewrite bind_run by reflexivity. rewrite Hloop. simpl.
      rewrite (bind_run _ _ _ _ _ Hcall).
      assert (bool_decide (res <> FR_OK) || Ascii.eqb (char_at (fname fno) 0) zero = true)
        as ->.
      { destruct Hend as [Hr| ->].
        - now rewrite bool_decide_eq_true_2.
        - apply orb_true_r. }
      reflexivity.
    + now simpl.
  - intros -> Hnz Hnd (l & cap & name & Hn & Hl) Hplan. eexists _, _. split.
    + erewrite bind_run by reflexivity. rewrite Hloop. simpl.
      rewrite (bind_run _ _ _ _ _ Hcall).
      rewrite bool_decide_eq_false_2 by (intros Hc; now apply Hc).
      apply Ascii.eqb_neq in Hnz, Hnd. rewrite Hnz, Hnd. simpl.
      rewrite Hn. erewrite bind_run; [|eapply load_str_run; rewrite Hh3, Hh2; exact Hl].
      unfold malloc at 1. unfold mbind at 1, M_bind at 1.
      rewrite Hp3, Hp2, Hplan.
      destruct (decide (NULL <> NULL)) as [Hc|_]; [contradiction|].
      reflexivity.
    + simpl. rewrite Hh3, Hh2. repeat split; reflexivity.
Qed.

(** [read()] on a live file object: -1 when [f_read] fails; otherwise the
    byte [f_read] stored in [data], or what [data] held if it stored none,
    as an [int8_t]. *)
Lemma read_Ret (this : File) (w : world) (l : loc) (f : FIL fil_priv) :
  _fil this = Some l ->
  w_heap w !! l = Some (BFil f) ->
  value (File_read this w) =
  Some (if decide ((f_read (w_vol w) f 1).1.1.1 = FR_OK)
        then int8_of_byte (hd (u_data (w_uninit w)) (f_read (w_vol w) f 1).1.1.2)
        else -1).
Proof.
  intros Hf Hl. unfold File_read, get_uninit, call_f_read.
  erewrite bind_run by reflexivity. rewrite Hf.
  rewrite (bind_run _ _ _ _ _ (on_fil_run _ _ _ _ _ Hl)).
  destruct (f_read (w_vol w) f 1) as [[[r bs] f'] v']. reflexivity.
Qed.


Lemma on_fil_frame {A} (l : loc) (w : world) (f : FIL fil_priv)
    (op : vol -> FIL fil_priv -> A * FIL fil_priv * vol) (ev : A -> event) :
  w_heap w !! l = Some (BFil f) ->
  exists a w1 f1,
    on_fil (Some l) op ev w = Ret a w1
    /\ w_heap w1 !! l = Some (BFil f1)
    /\ (forall l', l' <> l -> w_heap w1 !! l' = w_heap w !! l').
Proof.
  intros H. rewrite (on_fil_run _ _ _ _ _ H). eexists _, _, _.
  split; [reflexivity|]. simpl. split; [apply lookup_insert_eq|].
  intros l' Hne. now apply lookup_insert_ne.
Qed.

(** [close] returns whenever the path and the file object of the handle
    are live, distinct blocks. *)
Lemma close_runs (this : File) (w : world) :
  (forall l, _name this = Some l -> is_Some (w_heap w !! l)) ->
  (forall l2, _fil this = Some l2 -> exists f, w_heap w !! l2 = Some (BFil f)) ->
  (forall l, _name this = Some l -> _fil this <> Some l) ->
  exists h1 w1, File_close this w = Ret h1 w1.
Proof.
  destruct this as [[l|] fil d r]; simpl; intros Hn Hf Hne; unfold File_close; simpl.
  2:{ destruct (decide (NULL <> NULL)) as [Hc|_]; [contradiction|]. eauto. }
  destruct (decide (Some l <> NULL)) as [_|Hc]; [|exfalso; apply Hc; discriminate].
  specialize (Hn l eq_refl). specialize (Hne l eq_refl).
  assert (exists t1 w1,
    (if decide (fil <> NULL)
     then f ← load_fil fil;
          (if decide (fil_fs f <> 0)
           then call_f_sync fil ;; call_f_close fil ;; mret ()
           else mret ()) ;;
          free fil ;; mret (set_fil NULL (mkFile (Some l) fil d r))
     else mret (mkFile (Some l) fil d r)) w = Ret t1 w1
    /\ _name t1 = Some l /\ is_Some (w_heap w1 !! l)) as (t1 & w1 & H1 & Hn1 & Hl1).
  { destruct (decide (fil <> NULL)) as [Hfil|Hfil];
      [|exists (mkFile (Some l) fil d r), w; split; [reflexivity|split; [reflexivity|exact Hn]]].
    destruct fil as [l2|]; [clear Hfil|contradiction].
    destruct (Hf l2 eq_refl) as [f Hl2].
    assert (l <> l2) as Hll by (intros ->; now apply Hne).
    rewrite (bind_run _ _ _ _ _ (load_fil_run _ _ _ Hl2)).
    assert (exists w2 f2,
      (if decide (fil_fs f <> 0)
       then call_f_sync (Some l2) ;; call_f_close (Some l2) ;; mret ()
       else mret ()) w = Ret () w2
      /\ w_heap w2 !! l2 = Some (BFil f2)
      /\ w_heap w2 !! l = w_heap w !! l) as (w2 & f2 & H2 & Hl22 & Hl2l).
    { destruct (decide (fil_fs f <> 0));
        [|exists w, f; split; [reflexivity|split; [exact Hl2|reflexivity]]].
      destruct (on_fil_frame l2 w f f_sync EvSync Hl2) as (a & wa & fa & Ha & Hfa & Hfra).
      destruct (on_fil_frame l2 wa fa f_close EvClose Hfa) as (b & wb & fb & Hb & Hfb & Hfrb).
      unfold call_f_sync, call_f_close.
      rewrite (bind_run _ _ _ _ _ Ha), (bind_run _ _ _ _ _ Hb).
      eexists _, _. split; [reflexivity|]. split; [exact Hfb|].
      now rewrite Hfrb, Hfra. }
    rewrite (bind_run _ _ _ _ _ H2).
    unfold free, mbind, M_bind. rewrite Hl22. eexists _, _.
    split; [reflexivity|]. split; [reflexivity|].
    simpl. rewrite lookup_delete_ne by (intros ->; now apply Hll). now rewrite Hl2l. }
  rewrite (bind_run _ _ _ _ _ H1).
  assert (exists t2 w2,
    (if decide (dir_fs (_dir t1) <> 0)
     then '(_, d0) ← call_f_closedir (_dir t1); mret (set_dir d0 t1)
     else mret t1) w1 = Ret t2 w2
    /\ _name t2 = Some l /\ is_Some (w_heap w2 !! l)) as (t2 & w2 & H2 & Hn2 & Hl2).
  { destruct (decide (dir_fs (_dir t1) <> 0));
      [|exists t1, w1; split; [reflexivity|split; [exact Hn1|exact Hl1]]].
    unfold call_f_closedir, mbind, M_bind.
    destruct (f_closedir (w_vol w1) (_dir t1)) as [[r' d'] v'].
    eexists _, _. split; [reflexivity|]. split; [exact Hn1|exact Hl1]. }
  rewrite (bind_run _ _ _ _ _ H2). rewrite Hn2.
  destruct Hl2 as [b Hb]. unfold free, mbind, M_bind. rewrite Hb. eauto.
Qed.

(** [close] returns on every handle as [open] returned it. *)
Lemma close_after_open (path : string) (mode : Z) (w : world) (h : File) (w' : world) :
  SDClass_open path mode w = Ret h w' ->
  exists h1 w1, File_close h w' = Ret h1 w1.
Proof.
  intros H.
  apply open_Ret in H as (l1 & l2 & evs & m & r & f' & d & _ & _ & Hne & _ & H).
  apply close_runs;
    destruct H as [(_ & -> & _ & Hh)|(_ & r2 & _ & [(_ & -> & Hh)|(_ & -> & _)])]; simpl;
    try discriminate.
  - intros l [= <-]. rewrite Hh, lookup_insert_ne by (intros ->; now apply Hne).
    rewrite lookup_insert_eq. now eexists.
  - intros l [= <-]. rewrite Hh, lookup_insert_eq. now eexists.
  - intros l [= <-]. rewrite Hh, lookup_insert_eq. now eexists.
  - intros l [= <-] [= ->]. now apply Hne.
Qed.

(** ** More on [open] and [close] *)

Lemma malloc_run (b : block) (w : world) :
  malloc b w =
  if hd true (w_plan w)
  then Ret (Some (fresh (dom (w_heap w))))
         (set_heap (<[fresh (dom (w_heap w)) := b]> (w_heap w))
            (set_plan (tail (w_plan w)) w))
  else Ret NULL (set_plan (tail (w_plan w)) w).
Proof. reflexivity. Qed.

Lemma free_run (l : loc) (w : world) (b : block) :
  w_heap w !! l = Some b ->
  free (Some l) w = Ret tt (set_heap (delete l (w_heap w)) w).
Proof. unfold free. now intros ->. Qed.

Lemma fresh_None (w : world) : w_heap w !! fresh (dom (w_heap w)) = None.
Proof. apply not_elem_of_dom, is_fresh. Qed.

(** X1. Closing the handle that [open] returned always returns, leaves a
    handle with null pointers, and gives back every block [open] allocated:
    the heap is what it was before [open]. *)
Theorem open_then_close_restores_heap (path : string) (mode : Z) (w : world)
    (h : File) (w1 : world) :
  SDClass_open path mode w = Ret h w1 ->
  exists h' w2,
    File_close h w1 = Ret h' w2
    /\ w_heap w2 = w_heap w /\ _name h' = NULL /\ _fil h' = NULL.
Proof.
  intros H. destruct (close_after_open _ _ _ _ _ H) as (h' & w2 & Hc).
  exists h', w2. split; [exact Hc|].
  apply open_Ret in H as (l1 & l2 & evs & m & r & f' & d & Hl1 & Hl2 & Hne & _ & H).
  apply close_Ret in Hc as [(Hn & -> & ->)|(l & Hn & Hn' & Hf' & Hh)].
  - destruct H as [(_ & -> & _)|(_ & r2 & _ & [(_ & -> & _)|(_ & -> & Hh)])];
      try discriminate. now split.
  - split; [|now split]. rewrite Hh.
    destruct H as [(_ & -> & _ & Hh1)|(_ & r2 & _ & [(_ & -> & Hh1)|(_ & -> & _)])];
      try discriminate; simpl in *; injection Hn as <-; rewrite Hh1.
    + rewrite delete_insert_id by (now rewrite lookup_insert_ne).
      now apply delete_insert_id.
    + now apply delete_insert_id.
Qed.

(** [open] with its first allocation granted: it returns when the second
    is granted too, and calls [Error_Handler] when it is not. *)
Lemma open_run (path : string) (mode : Z) (w : world) (p2 : bool) :
  hd true (w_plan w) = true ->
  hd true (tail (w_plan w)) = p2 ->
  if p2 then exists h w', SDClass_open path mode w = Ret h w'
  else SDClass_open path mode w = Abort.
Proof.
  intros Hp1 Hp2. unfold SDClass_open, File_File, get_uninit.
    erewrite bind_run by reflexivity.
    erewrite bind_run by (rewrite malloc_run, Hp1; reflexivity).
    simpl. erewrite bind_run by reflexivity.
    set (l1 := fresh (dom (w_heap w))).
    erewrite bind_run; [|eapply sprintf_run; [simpl; apply lookup_insert_eq|lia]].
    wsimpl. rewrite insert_insert_eq.
    erewrite bind_run by reflexivity.
    destruct p2;
      (erewrite bind_run by (rewrite malloc_run; simpl; rewrite Hp2; reflexivity));
      [|reflexivity].
    set (h1 := <[l1:=BChars (String.length path + 1) (Some path)]> _).
    set (l2 := fresh (dom h1)).
    assert (h1 !! l2 = None) as Hl2 by apply not_elem_of_dom, is_fresh.
    assert (l1 <> l2) as Hne.
    { intros E. rewrite <- E in Hl2. unfold h1 in Hl2.
      now rewrite lookup_insert_eq in Hl2. }
    simpl. erewrite bind_run by reflexivity.
    erewrite bind_run; [|apply load_fil_run; simpl; apply lookup_insert_eq].
    erewrite bind_run; [|eapply store_fil_run; simpl; apply lookup_insert_eq].
    wsimpl. rewrite insert_insert_eq.
    assert (exists m evs v1,
      (if decide (mode = FILE_WRITE)
       then ex ← SDClass_exists path;
            mret (if negb ex then Z.lor mode FA_CREATE_ALWAYS `mod` 256 else mode)
       else mret mode)
        (mkWorld (w_vol w) (<[l2:=BFil (clear_fil_fs (u_fil (w_uninit w)))]> h1)
           (tail (tail (w_plan w))) (w_log w) (w_uninit w))
      = Ret m (mkWorld v1 (<[l2:=BFil (clear_fil_fs (u_fil (w_uninit w)))]> h1)
                 (tail (tail (w_plan w))) (evs ++ w_log w) (w_uninit w)))
      as (m & evs & v1 & Hm).
    { destruct (decide (mode = FILE_WRITE)).
      - unfold SDClass_exists, call_f_stat, mbind, M_bind, mret, M_ret. wsimpl.
        destruct (f_stat (w_vol w) path) as [[r1 fno] v1]. wsimpl.
        now eexists _, [_], _.
      - now exists mode, [], (w_vol w). }
    rewrite (bind_run _ _ _ _ _ Hm). unfold call_f_open.
    erewrite bind_run; [|apply on_fil_run; simpl; apply lookup_insert_eq].
    wsimpl. rewrite insert_insert_eq.
    destruct (f_open v1 (clear_fil_fs (u_fil (w_uninit w))) path m) as [[r f'] v2].
    wsimpl. destruct (decide (r <> FR_OK)); [|now eexists _, _].
    erewrite bind_run; [|eapply free_run; simpl; apply lookup_insert_eq].
    wsimpl. rewrite delete_insert_id by exact Hl2.
    unfold call_f_opendir. unfold mbind at 1, M_bind at 1. wsimpl.
    destruct (f_opendir v2 (clear_dir_fs (u_dir (w_uninit w))) path) as [[r2 d] v3].
    destruct (decide (r2 <> FR_OK)); [|now eexists _, _].
    erewrite bind_run; [|eapply free_run; simpl; apply lookup_insert_eq].
    now eexists _, _.
Qed.

Lemma open_first_malloc_fails (path : string) (mode : Z) (w : world) :
  hd true (w_plan w) = false -> SDClass_open path mode w = Abort.
Proof.
  intros Hp. unfold SDClass_open, File_File, get_uninit.
  erewrite bind_run by reflexivity.
  erewrite bind_run by (rewrite malloc_run, Hp; reflexivity).
  reflexivity.
Qed.

Lemma open_Ret_or_Abort (path : string) (mode : Z) (w : world) :
  (exists h w', SDClass_open path mode w = Ret h w') \/ SDClass_open path mode w = Abort.
Proof.
  destruct (hd true (w_plan w)) eqn:Hp1; [|right; now apply open_first_malloc_fails].
  destruct (hd true (tail (w_plan w))) eqn:Hp2.
  - left. now apply (open_run path mode w true).
  - right. now apply (open_run path mode w false).
Qed.

(** X2. [open] calls [Error_Handler] exactly when one of its two
    allocations fails; otherwise it returns: the path fits its buffer and
    every block it releases is live, whatever the driver answers. *)
Theorem open_aborts_iff_malloc_fails (path : string) (mode : Z) (w : world) :
  (hd true (w_plan w) = false \/ hd true (tail (w_plan w)) = false ->
   SDClass_open path mode w = Abort)
  /\ (hd true (w_plan w) = true -> hd true (tail (w_plan w)) = true ->
      exists h w', SDClass_open path mode w = Ret h w').
Proof.
  split.
  - intros [Hp|Hp].
    + now apply open_first_malloc_fails.
    + destruct (hd true (w_plan w)) eqn:Hp1.
      * now apply (open_run path mode w false).
      * now apply open_first_malloc_fails.
  - intros Hp1 Hp2. now apply (open_run path mode w true).
Qed.

(** ** [isDirectory], [rewindDirectory], [peek], [read(buf, len)] *)

#[local] Arguments File_read : simpl never.
#[local] Arguments File_position : simpl never.
#[local] Arguments File_size : simpl never.
#[local] Arguments File_seek : simpl never.
#[local] Arguments File_isDirectory : simpl never.

(** X3. On the handle [open] returned: when both attempts failed,
    [isDirectory()] calls [Error_Handler]; when the file object is bound it
    returns false, and when the directory is bound it returns true, in both
    cases without a driver call. *)
Theorem isDirectory_after_open (path : string) (mode : Z) (w : world)
    (h : File) (w1 : world) :
  SDClass_open path mode w = Ret h w1 ->
  (_res h <> FR_OK -> File_isDirectory h w1 = Abort)
  /\ (_res h = FR_OK -> file_bound h w1 -> File_isDirectory h w1 = Ret false w1)
  /\ (_res h = FR_OK -> dir_bound h -> File_isDirectory h w1 = Ret true w1).
Proof.
  intros H.
  apply open_Ret in H as (l1 & l2 & evs & m & r & f' & d & _ & _ & _ & _ & H).
  unfold File_isDirectory, dir_bound.
  destruct H as [(_ & -> & _ & Hh)|(_ & r2 & _ & [(_ & -> & Hh)|(Hr2 & -> & _)])]; simpl.
  - split; [intros Hc; now contradiction Hc|]. split.
    + intros _ (l & f & [= <-] & Hl & Hfs).
      erewrite bind_run by reflexivity.
      destruct (decide (0 <> 0)) as [Hc|_]; [now contradiction Hc|].
      rewrite (bind_run _ _ _ _ _ (load_fil_run _ _ _ Hl)).
      destruct (decide (fil_fs f <> 0)); [reflexivity|contradiction].
    + intros _ Hc. now contradiction Hc.
  - split; [intros Hc; now contradiction Hc|]. split.
    + intros _ (l & f & Hc & _). discriminate Hc.
    + intros _ Hd. erewrite bind_run by reflexivity.
      destruct (decide (dir_fs d <> 0)); [reflexivity|contradiction].
  - split; [reflexivity|]. split; intros Hc; contradiction.
Qed.

(** X4. [peek()] when [read()] consumes a byte: it returns what [read()]
    returns and seeks back to the position it started from. *)
Theorem peek_seeks_back (this : File) (w : world) (p x : Z) (w1 : world)
    (b : bool) (w2 : world) :
  File_position this w = Ret p w ->
  File_read this w = Ret x w1 ->
  File_position this w1 = Ret (p + 1) w1 ->
  File_seek this p w1 = Ret b w2 ->
  File_peek this w = Ret x w2.
Proof.
  intros Hp Hr Hp1 Hs. unfold File_peek.
  rewrite (bind_run _ _ _ _ _ Hr), (bind_run _ _ _ _ _ Hp1).
  apply File_position_Ret in Hp as (_ & l & f & _ & _ & ->).
  replace ((f_tell f mod 2 ^ 32 + 1 - 1) mod 2 ^ 32) with (f_tell f mod 2 ^ 32).
  - now rewrite (bind_run _ _ _ _ _ Hs).
  - rewrite Z.add_simpl_r. symmetry. apply Z.mod_small, Z.mod_pos_bound. lia.
Qed.

(** X5. [peek()] when [read()] consumes nothing (at the end of the file,
    where [f_read] succeeds without a byte): from a position that is not 0
    it seeks to the position before, so the position moves back by one;
    from the position 0 it asks for the position [0xFFFFFFFF], which
    [seek] refuses without a driver call whenever the size is smaller. *)
Theorem peek_without_byte (this : File) (w : world) (p x : Z) (w1 : world) :
  File_position this w = Ret p w ->
  File_read this w = Ret x w1 ->
  File_position this w1 = Ret p w1 ->
  (0 < p ->
   forall b w2, File_seek this (p - 1) w1 = Ret b w2 -> File_peek this w = Ret x w2)
  /\ (p = 0 ->
      forall sz, File_size this w1 = Ret sz w1 -> sz < 2 ^ 32 - 1 ->
                 File_peek this w = Ret x w1).
Proof.
  intros Hp Hr Hp1. unfold File_peek.
  rewrite (bind_run _ _ _ _ _ Hr), (bind_run _ _ _ _ _ Hp1).
  apply File_position_Ret in Hp as (_ & l & f & _ & _ & Hp).
  assert (0 <= p < 2 ^ 32) as Hrange by (subst p; apply Z.mod_pos_bound; lia).
  split.
  - intros Hpos b w2 Hs. rewrite Z.mod_small by lia.
    now rewrite (bind_run _ _ _ _ _ Hs).
  - intros -> sz Hsz Hlt.
    assert (File_seek this ((0 - 1) mod 2 ^ 32) w1 = Ret false w1) as Hs.
    { unfold File_seek. rewrite (bind_run _ _ _ _ _ Hsz).
      destruct (decide ((0 - 1) mod 2 ^ 32 <= sz)) as [Hc|_]; [|reflexivity].
      exfalso. change ((0 - 1) mod 2 ^ 32) with (2 ^ 32 - 1) in Hc. lia. }
    now rewrite (bind_run _ _ _ _ _ Hs).
Qed.

(** X6. [read(buf, len)] with a count below 2^31: the result is -1
    exactly when [f_read] fails, and the number of bytes stored at [buf]
    when it succeeds, so -1 is never a count. *)
Theorem read_buf_result (this : File) (w : world) (l : loc) (f : FIL fil_priv)
    (len : nat) (r : FRESULT) (bs : list byte) (f' : FIL fil_priv) (v' : vol) :
  _fil this = Some l ->
  w_heap w !! l = Some (BFil f) ->
  f_read (w_vol w) f len = (r, bs, f', v') ->
  Z.of_nat (length bs) < 2 ^ 31 ->
  exists n w',
    File_read_buf this len w = Ret (n, bs) w'
    /\ (n = -1 <-> r <> FR_OK)
    /\ (r = FR_OK -> n = Z.of_nat (length bs))
    /\ w_log w' = EvRead len r (length bs) :: w_log w.
Proof.
  intros Hf Hl Hrd Hlen. unfold File_read_buf, call_f_read. rewrite Hf.
  rewrite (bind_run _ _ _ _ _ (on_fil_run _ _ _ _ _ Hl)). rewrite Hrd. simpl.
  eexists _, _. split; [reflexivity|]. simpl.
  destruct (decide (r = FR_OK)) as [->|Hr].
  - unfold int_of_uint. rewrite Z.mod_small by lia.
    destruct (Z.ltb_spec (Z.of_nat (length bs)) (2 ^ 31)); [|lia].
    split; [|split; [reflexivity|reflexivity]].
    split; [lia|]. intros Hc. now contradiction Hc.
  - split; [|split; [intros Hc; contradiction|reflexivity]].
    split; [intros _; exact Hr|reflexivity].
Qed.

(** X7. [rewindDirectory()] on a handle whose file object is bound does
    nothing: no driver call, the handle and the world are unchanged. *)
Theorem rewindDirectory_on_file (this : File) (w : world) :
  _name this <> NULL ->
  file_bound this w ->
  ~ dir_bound this ->
  File_rewindDirectory this w = Ret this w.
Proof.
  intros Hn (l & f & Hf & Hl & Hfs) Hd. unfold File_rewindDirectory.
  assert (File_isDirectory this w = Ret false w) as Hdir.
  { unfold File_isDirectory.
    destruct (decide (_name this = NULL)) as [Hc|_]; [contradiction|].
    erewrite bind_run by reflexivity.
    destruct (decide (dir_fs (_dir this) <> 0)) as [Hc|_]; [contradiction|].
    rewrite Hf, (bind_run _ _ _ _ _ (load_fil_run _ _ _ Hl)).
    destruct (decide (fil_fs f <> 0)); [reflexivity|contradiction]. }
  now rewrite (bind_run _ _ _ _ _ Hdir).
Qed.

Lemma rewindDirectory_run (this : File) (w : world) (l : loc) (cap : nat)
    (s : string) (rc ro : FRESULT) (d1 d2 : DIR dir_priv) (v1 v2 : vol) :
  _name this = Some l ->
  w_heap w !! l = Some (BChars cap (Some s)) ->
  dir_bound this ->
  f_closedir (w_vol w) (_dir this) = (rc, d1, v1) ->
  f_opendir v1 d1 s = (ro, d2, v2) ->
  File_rewindDirectory this w =
  Ret (mkFile (_name this) (_fil this) d2 (_res this))
      (mkWorld v2 (w_heap w) (w_plan w)
         (EvOpendir s ro :: EvClosedir rc :: w_log w) (w_uninit w)).
Proof.
  intros Hn Hl Hd Hc Ho. unfold File_rewindDirectory.
  assert (File_isDirectory this w = Ret true w) as Hdir.
  { unfold File_isDirectory. rewrite Hn.
    erewrite bind_run by reflexivity.
    destruct (decide (dir_fs (_dir this) <> 0)); [reflexivity|contradiction]. }
  rewrite (bind_run _ _ _ _ _ Hdir).
  destruct (decide (dir_fs (_dir this) <> 0)) as [_|Hc']; [|contradiction].
  unfold call_f_closedir, call_f_opendir, mbind, M_bind. rewrite Hc. wsimpl.
  rewrite Hn. unfold load_str. wsimpl. rewrite Hl. simpl. rewrite Ho.
  unfold mret, M_ret, set_dir. simpl. now rewrite Hn.
Qed.

(** X8. [rewindDirectory()] on a handle whose directory is bound: it calls
    [f_closedir], then [f_opendir] on the handle's own path, and keeps the
    directory object as [f_opendir] left it; the path, the file pointer and
    the stored result code stay as they were (the result of [f_opendir] is
    dropped) and the heap is untouched. *)
Theorem rewindDirectory_on_directory (this : File) (w : world) (l : loc) (cap : nat)
    (s : string) (rc ro : FRESULT) (d1 d2 : DIR dir_priv) (v1 v2 : vol) :
  _name this = Some l ->
  w_heap w !! l = Some (BChars cap (Some s)) ->
  dir_bound this ->
  f_closedir (w_vol w) (_dir this) = (rc, d1, v1) ->
  f_opendir v1 d1 s = (ro, d2, v2) ->
  exists this' w',
    File_rewindDirectory this w = Ret this' w'
    /\ _name this' = _name this /\ _fil this' = _fil this /\ _res this' = _res this
    /\ _dir this' = d2
    /\ w_log w' = EvOpendir s ro :: EvClosedir rc :: w_log w
    /\ w_heap w' = w_heap w.
Proof.
  intros Hn Hl Hd Hc Ho.
  rewrite (rewindDirectory_run this w l cap s rc ro d1 d2 v1 v2 Hn Hl Hd Hc Ho).
  eexists _, _. split; [reflexivity|]. now simpl.
Qed.


(** ** More on [openNextFile] *)

#[local] Arguments call_f_readdir : simpl never.
#[local] Arguments File_close : simpl never.

Lemma length_app (s1 s2 : string) :
  String.length (s1 +:+ s2) = (String.length s1 + String.length s2)%nat.
Proof. induction s1 as [|a s1 IH]; simpl; [reflexivity|now rewrite IH]. Qed.

Lemma child_path_fits (name fn : string) :
  (String.length (child_path name fn) < String.length name + String.length fn + 2)%nat.
Proof.
  unfold child_path.
  destruct ((0 <? String.length name)%nat
            && Ascii.eqb (char_at name (String.length name - 1)) slash);
    rewrite !length_app; simpl; lia.
Qed.

Lemma load_str_Ret (p : ptr) (w : world) (s : string) (w1 : world) :
  load_str p w = Ret s w1 ->
  w1 = w /\ exists l cap, p = Some l /\ w_heap w !! l = Some (BChars cap (Some s)).
Proof.
  unfold load_str. destruct p as [l|]; [|discriminate].
  destruct (w_heap w !! l) as [[cap [s0|]|]|] eqn:E; try discriminate.
  intros [= <- <-]. split; [reflexivity|]. now exists l, cap.
Qed.

Lemma call_f_readdir_log (d : DIR dir_priv) (w : world) (r : FRESULT) (fno : FILINFO)
    (d' : DIR dir_priv) (w1 : world) :
  call_f_readdir d w = Ret (r, fno, d') w1 ->
  w_log w1 = EvReaddir r (fname fno) :: w_log w.
Proof.
  unfold call_f_readdir.
  destruct (f_readdir (w_vol w) d) as [[[r0 fno0] d0] v]. now intros [= <- <- <- <-].
Qed.

(** Every return of the loop of [openNextFile]: a handle without path, the
    heap being as before; or the handle that [open] returned for the child
    path, composed in a block that is released after [open]. *)
Lemma openNextFile_loop_Ret (fuel : nat) :
  forall (this filtmp : File) (mode : Z) (w : world) (r this' : File) (w' : world),
    _name filtmp = NULL ->
    _fil filtmp = NULL ->
    File_openNextFile_loop fuel this filtmp mode w = Ret (r, this') w' ->
    (_name r = NULL /\ _fil r = NULL /\ w_heap w' = w_heap w)
    \/ (exists name fn lp w3 w4,
           (exists l cap, _name this = Some l
                          /\ w_heap w !! l = Some (BChars cap (Some name)))
           /\ w_heap w !! lp = None
           /\ w_heap w3 =
                <[lp := BChars (String.length name + String.length fn + 2)
                          (Some (child_path name fn))]> (w_heap w)
           /\ last_readdir (w_log w3) = Some (FR_OK, fn)
           /\ SDClass_open (child_path name fn) mode w3 = Ret r w4
           /\ w_heap w' = delete lp (w_heap w4)
           /\ w_log w' = w_log w4).
Proof.
  induction fuel as [|fuel IH]; intros this filtmp mode w r this' w' Hn0 Hf0 H;
    [discriminate|].
  simpl in H.
  apply bind_Ret in H as ([[res fno] d] & w1 & H1 & H).
  destruct (call_f_readdir_frame _ _ _ _ H1) as (Hh1 & Hp1 & _).
  pose proof (call_f_readdir_log _ _ _ _ _ _ H1) as Hlog1.
  destruct (bool_decide (res <> FR_OK)) eqn:Hres; simpl in H.
  { injection H as <- _ <-. left. simpl. now rewrite Hh1. }
  apply bool_decide_eq_false in Hres.
  assert (res = FR_OK) as -> by (destruct (decide (res = FR_OK)); [done|contradiction]).
  destruct (Ascii.eqb (char_at (fname fno) 0) zero).
  { injection H as <- _ <-. left. simpl. now rewrite Hh1. }
  destruct (Ascii.eqb (char_at (fname fno) 0) dot).
  { apply IH in H; [|exact Hn0|exact Hf0]. simpl in H. rewrite Hh1 in H.
    destruct H as [H|(name & fn & lp & w3 & w4 & H)]; [now left|].
    right. now exists name, fn, lp, w3, w4. }
  apply bind_Ret in H as (name & w2 & H2 & H). simpl in H2.
  apply load_str_Ret in H2 as (-> & l & cap & Hl & Hname).
  apply bind_Ret in H as (fullPath & w2 & H2 & H).
  apply malloc_Ret in H2 as [[-> ->]|(lp & -> & Hlp & ->)].
  { destruct (decide (NULL <> NULL)) as [Hc|_]; [contradiction|].
    injection H as <- _ <-. left. simpl. now rewrite Hh1. }
  destruct (decide (Some lp <> NULL)) as [_|Hc]; [|exfalso; apply Hc; discriminate].
  apply bind_Ret in H as ([] & w3 & H3 & H).
  assert (sprintf (Some lp) (child_path name (fname fno))
            (set_heap (<[lp:=BChars (String.length name + String.length (fname fno) + 2)
                               None]> (w_heap w1))
               (set_plan (tail (w_plan w1)) w1)) = Ret () w3) as H3'.
  { unfold child_path.
    destruct ((0 <? String.length name)%nat
              && Ascii.eqb (char_at name (String.length name - 1)) slash); exact H3. }
  clear H3. erewrite sprintf_run in H3';
    [|simpl; apply lookup_insert_eq|apply child_path_fits].
  injection H3' as <-. wsimpl. rewrite insert_insert_eq in H.
  erewrite bind_run in H; [|eapply load_str_run; simpl; apply lookup_insert_eq].
  apply bind_Ret in H as (h & w4 & Ho & H).
  apply bind_Ret in H as ([] & w5 & H5 & H).
  apply free_Ret in H5 as [_ ->]. injection H as <- _ <-.
  right. exists name, (fname fno), lp.
  match type of Ho with SDClass_open _ _ ?w3 = _ => exists w3, w4 end.
  split; [exists l, cap; split; [exact Hl|now rewrite <- Hh1]|].
  split; [now rewrite <- Hh1|].
  split; [simpl; now rewrite Hh1|].
  split; [simpl; now rewrite Hlog1|].
  split; [exact Ho|]. now split.
Qed.

Lemma openNextFile_Ret (fuel : nat) (this : File) (mode : Z) (w : world)
    (r this' : File) (w' : world) :
  File_openNextFile fuel this mode w = Ret (r, this') w' ->
  (_name r = NULL /\ _fil r = NULL /\ w_heap w' = w_heap w)
  \/ (exists name fn lp w3 w4,
         (exists l cap, _name this = Some l
                        /\ w_heap w !! l = Some (BChars cap (Some name)))
         /\ w_heap w !! lp = None
         /\ w_heap w3 =
              <[lp := BChars (String.length name + String.length fn + 2)
                        (Some (child_path name fn))]> (w_heap w)
         /\ last_readdir (w_log w3) = Some (FR_OK, fn)
         /\ SDClass_open (child_path name fn) mode w3 = Ret r w4
         /\ w_heap w' = delete lp (w_heap w4)
         /\ w_log w' = w_log w4).
Proof.
  unfold File_openNextFile. intros H.
  apply bind_Ret in H as (filtmp & w1 & [= <- <-] & H).
  now apply openNextFile_loop_Ret in H.
Qed.

Lemma File_name_run (this : File) (w : world) (l : loc) (cap : nat) (pre suf : string) :
  _name this = Some l ->
  w_heap w !! l = Some (BChars cap (Some (pre +:+ String slash suf))) ->
  ~ In slash (list_ascii_of_string suf) ->
  File_name this w = Ret (Some (l, S (String.length pre))) w
  /\ str_at (pre +:+ String slash suf) (S (String.length pre)) = suf.
Proof.
  intros Hn Hl Hsuf. split.
  - unfold File_name. rewrite Hn. rewrite (bind_run _ _ _ _ _ (load_str_run _ _ _ _ Hl)).
    rewrite (strrchr_last _ _ _ Hsuf), char_at_app.
    unfold slash at 2. now rewrite Ascii.eqb_refl.
  - clear. induction pre as [|a pre IH]; simpl; [now destruct suf|exact IH].
Qed.

Lemma ends_in_slash (name : string) :
  (0 <? String.length name)%nat
  && Ascii.eqb (char_at name (String.length name - 1)) slash = true ->
  exists pre, name = pre +:+ String slash EmptyString.
Proof.
  induction name as [|a name IH]; [discriminate|].
  destruct name as [|b name].
  - simpl. unfold char_at. simpl. intros H. apply Ascii.eqb_eq in H. subst a.
    now exists EmptyString.
  - intros H. destruct IH as [pre Hpre].
    + simpl in *. unfold char_at in *. simpl in *.
      now rewrite Nat.sub_0_r.
    + exists (String a pre). rewrite Hpre. reflexivity.
Qed.

Lemma app_assoc_str (a b c : string) : (a +:+ b) +:+ c = a +:+ (b +:+ c).
Proof.
  induction a as [|x a IH]; [reflexivity|].
  change (String x ((a +:+ b) +:+ c) = String x (a +:+ (b +:+ c))).
  now rewrite IH.
Qed.

(** The composed path ends in a separator followed by the entry name. *)
Lemma child_path_split (name fn : string) :
  exists pre, child_path name fn = pre +:+ String slash fn.
Proof.
  unfold child_path.
  destruct ((0 <? String.length name)%nat
            && Ascii.eqb (char_at name (String.length name - 1)) slash) eqn:E.
  - destruct (ends_in_slash _ E) as [pre ->]. exists pre.
    now rewrite app_assoc_str.
  - now exists name.
Qed.

Lemma last_readdir_open_events (path : string) (mode : Z) (v : vol) (m : Z)
    (evs log : list event) :
  (evs, m) =
    (if decide (mode = FILE_WRITE)
     then ([EvStat path (f_stat v path).1.1],
           if decide ((f_stat v path).1.1 <> FR_OK)
           then Z.lor mode FA_CREATE_ALWAYS mod 256 else mode)
     else ([], mode)) ->
  last_readdir (evs ++ log) = last_readdir log.
Proof. destruct (decide (mode = FILE_WRITE)); now intros [= -> _]. Qed.

(** X10. Closing the handle that [openNextFile] returned always returns
    and gives the heap back as it was before [openNextFile]: the block of
    the child path is released by [openNextFile] itself, the handle's blocks
    by [close]. *)
Theorem openNextFile_then_close_restores_heap (fuel : nat) (this : File) (mode : Z)
    (w : world) (r this' : File) (w1 : world) :
  File_openNextFile fuel this mode w = Ret (r, this') w1 ->
  exists h' w2, File_close r w1 = Ret h' w2 /\ w_heap w2 = w_heap w.
Proof.
  intros H.
  apply openNextFile_Ret in H
    as [(Hn & _ & Hh)|(name & fn & lp & w3 & w4 & _ & Hlp & Hh3 & _ & Ho & Hh1 & _)].
  - exists r, w1. split; [|exact Hh]. unfold File_close. rewrite Hn.
    destruct (decide (NULL <> NULL)) as [Hc|_]; [contradiction|reflexivity].
  - apply open_Ret in Ho as (l1 & l2 & evs & m & ro & f' & d & Hl1 & Hl2 & Hne & _ & Ho).
    rewrite Hh3 in Hl1, Hl2.
    assert (l1 <> lp) as Hl1p by (intros ->; now rewrite lookup_insert_eq in Hl1).
    assert (l2 <> lp) as Hl2p by (intros ->; now rewrite lookup_insert_eq in Hl2).
    rewrite lookup_insert_ne in Hl1, Hl2 by congruence.
    assert (exists h' w2, File_close r w1 = Ret h' w2) as (h' & w2 & Hc).
    { apply close_runs.
      - intros l Hl. rewrite Hh1.
        destruct Ho as [(_ & -> & _ & Hh4)|(_ & r2 & _ & [(_ & -> & Hh4)|(_ & -> & _)])];
          simpl in Hl; try discriminate; injection Hl as <-;
          rewrite lookup_delete_ne, Hh4 by congruence;
          rewrite ?lookup_insert_ne by congruence; rewrite lookup_insert_eq;
          now eexists.
      - intros l Hl. rewrite Hh1.
        destruct Ho as [(_ & -> & _ & Hh4)|(_ & r2 & _ & [(_ & -> & Hh4)|(_ & -> & _)])];
          simpl in Hl; try discriminate; injection Hl as <-.
        rewrite lookup_delete_ne, Hh4 by congruence.
        rewrite lookup_insert_eq. now eexists.
      - intros l Hl Hl'.
        destruct Ho as [(_ & -> & _)|(_ & r2 & _ & [(_ & -> & _)|(_ & -> & _)])];
          simpl in *; try discriminate.
        injection Hl as <-. injection Hl' as ->. now apply Hne. }
    exists h', w2. split; [exact Hc|].
    apply close_Ret in Hc as [(Hn & -> & ->)|(l & Hn & _ & _ & Hh2)].
    + destruct Ho as [(_ & -> & _)|(_ & r2 & _ & [(_ & -> & _)|(_ & -> & Hh4)])];
        try discriminate.
      rewrite Hh1, Hh4, Hh3. now apply delete_insert_id.
    + rewrite Hh2, Hh1.
      destruct Ho as [(_ & -> & _ & Hh4)|(_ & r2 & _ & [(_ & -> & Hh4)|(_ & -> & _)])];
        try discriminate; simpl in *; injection Hn as <-; rewrite Hh4, Hh3;
        apply map_eq; intros i;
        rewrite ?lookup_delete, ?lookup_insert; repeat case_decide; congruence.
Qed.

(** X11. The handle that [openNextFile] returns for an entry is named after
    it: the handle's path has the entry name that [f_readdir] reported after
    its last separator, so that [name()] points to that entry name (for a
    name without '/'). *)
Theorem openNextFile_child_name (fuel : nat) (this : File) (mode : Z) (w : world)
    (r this' : File) (w' : world) (l : loc) :
  File_openNextFile fuel this mode w = Ret (r, this') w' ->
  _name r = Some l ->
  exists fn cap pre,
    last_readdir (w_log w') = Some (FR_OK, fn)
    /\ w_heap w' !! l = Some (BChars cap (Some (pre +:+ String slash fn)))
    /\ (~ In slash (list_ascii_of_string fn) ->
        File_name r w' = Ret (Some (l, S (String.length pre))) w'
        /\ str_at (pre +:+ String slash fn) (S (String.length pre)) = fn).
Proof.
  intros H Hn.
  apply openNextFile_Ret in H
    as [(Hn0 & _)|(name & fn & lp & w3 & w4 & _ & Hlp & Hh3 & Hrd & Ho & Hh1 & Hlog)];
    [rewrite Hn in Hn0; discriminate|].
  destruct (child_path_split name fn) as [pre Hpre]. rewrite Hpre in *.
  apply open_Ret in Ho as (l1 & l2 & evs & m & ro & f' & d & Hl1 & Hl2 & Hne & Hpol & Ho).
  rewrite Hh3 in Hl1, Hl2.
  assert (l1 <> lp) as Hl1p by (intros ->; now rewrite lookup_insert_eq in Hl1).
  assert (l2 <> lp) as Hl2p by (intros ->; now rewrite lookup_insert_eq in Hl2).
  pose proof (last_readdir_open_events _ _ _ _ _ (w_log w3) Hpol) as Hevs.
  exists fn, (String.length (pre +:+ String slash fn) + 1)%nat, pre.
  assert (last_readdir (w_log w') = Some (FR_OK, fn)
          /\ w_heap w' !! l =
             Some (BChars (String.length (pre +:+ String slash fn) + 1)
                     (Some (pre +:+ String slash fn)))) as [Hlast Hl].
  { rewrite Hlog, Hh1.
    destruct Ho as [(_ & -> & -> & Hh4)|(_ & r2 & -> & [(_ & -> & Hh4)|(_ & -> & _)])];
      simpl in Hn; try discriminate; injection Hn as <-; simpl; rewrite Hevs, Hrd;
      (split; [reflexivity|]); rewrite lookup_delete_ne, Hh4 by congruence.
    - rewrite lookup_insert_ne by congruence. apply lookup_insert_eq.
    - apply lookup_insert_eq. }
  split; [exact Hlast|]. split; [exact Hl|].
  intros Hfn. now apply (File_name_run r w' l _ pre fn Hn Hl).
Qed.

Lemma openNextFile_loop_defined (fuel : nat) :
  forall (this filtmp : File) (mode : Z) (w : world) (l : loc) (cap : nat) (name : string),
    _name this = Some l ->
    w_heap w !! l = Some (BChars cap (Some name)) ->
    File_openNextFile_loop fuel this filtmp mode w <> Undef.
Proof.
  induction fuel as [|fuel IH]; intros this filtmp mode w l cap name Hn Hl;
    [discriminate|].
  simpl. unfold mbind at 1, M_bind at 1.
  destruct (call_f_readdir (_dir this) w) as [[[res fno] d] w1| | |] eqn:H1.
  2-4: unfold call_f_readdir in H1;
       destruct (f_readdir (w_vol w) (_dir this)) as [[[? ?] ?] ?]; discriminate.
  destruct (call_f_readdir_frame _ _ _ _ H1) as (Hh1 & _ & _).
  destruct (bool_decide (res <> FR_OK) || Ascii.eqb (char_at (fname fno) 0) zero);
    [discriminate|].
  destruct (Ascii.eqb (char_at (fname fno) 0) dot).
  { apply (IH _ _ _ _ l cap name); [exact Hn|now rewrite Hh1]. }
  simpl. rewrite Hn. intros Hu. rewrite <- Hh1 in Hl.
  unfold mbind at 1, M_bind at 1 in Hu. rewrite (load_str_run _ _ _ _ Hl) in Hu.
  unfold mbind at 1, M_bind at 1 in Hu. rewrite malloc_run in Hu.
  destruct (hd true (w_plan w1)).
  2:{ destruct (decide (NULL <> NULL)) as [Hc|_]; [contradiction|discriminate]. }
  set (lp := fresh (dom (w_heap w1))) in Hu.
  assert (w_heap w1 !! lp = None) as Hlp by apply fresh_None.
  rewrite decide_True in Hu by discriminate.
  assert ((if (0 <? String.length name)%nat
              && Ascii.eqb (char_at name (String.length name - 1)) slash
           then sprintf (Some lp) (name +:+ fname fno)
           else sprintf (Some lp) (name +:+ "/" +:+ fname fno))
          = sprintf (Some lp) (child_path name (fname fno))) as Hsp.
  { unfold child_path.
    now destruct ((0 <? String.length name)%nat
                  && Ascii.eqb (char_at name (String.length name - 1)) slash). }
  rewrite Hsp in Hu. clear Hsp.
  unfold mbind at 1, M_bind at 1 in Hu.
  erewrite sprintf_run in Hu;
    [|simpl; apply lookup_insert_eq|apply child_path_fits].
  wsimpl. rewrite insert_insert_eq in Hu.
  unfold mbind at 1, M_bind at 1 in Hu.
  erewrite load_str_run in Hu by (simpl; apply lookup_insert_eq).
  unfold mbind at 1, M_bind at 1 in Hu.
  match type of Hu with
  | context [SDClass_open ?p ?m ?w3] =>
      destruct (open_Ret_or_Abort p m w3) as [(h & w4 & Ho)|Ho]; rewrite Ho in Hu
  end; [|discriminate].
  apply open_Ret in Ho as (l1 & l2 & evs & m & ro & f' & d0 & Hl1 & Hl2 & _ & _ & Ho).
  simpl in Hl1, Hl2.
  assert (l1 <> lp) as Hl1p by (intros ->; now rewrite lookup_insert_eq in Hl1).
  assert (l2 <> lp) as Hl2p by (intros ->; now rewrite lookup_insert_eq in Hl2).
  assert (is_Some (w_heap w4 !! lp)) as [b Hb].
  { destruct Ho as [(_ & _ & _ & ->)|(_ & r2 & _ & [(_ & _ & ->)|(_ & _ & ->)])]; simpl;
      rewrite ?lookup_insert_ne by congruence; rewrite lookup_insert_eq; now eexists. }
  unfold mbind at 1, M_bind at 1 in Hu.
  rewrite (free_run _ _ _ Hb) in Hu. discriminate.
Qed.

(** X12. On a handle whose path is a live string, [openNextFile] has no
    undefined behaviour, whatever the driver answers and whichever
    allocations fail: the buffer of the child path is large enough with and
    without the added separator, and what is released is live. *)
Theorem openNextFile_never_undefined (fuel : nat) (this : File) (mode : Z) (w : world)
    (l : loc) (cap : nat) (name : string) :
  _name this = Some l ->
  w_heap w !! l = Some (BChars cap (Some name)) ->
  File_openNextFile fuel this mode w <> Undef.
Proof.
  intros Hn Hl. unfold File_openNextFile, File_File, get_uninit.
  erewrite bind_run by reflexivity.
  now apply (openNextFile_loop_defined fuel _ _ _ _ l cap name).
Qed.

(** ** Printing and listing *)

Context {HD : Header}.

(** X13. [printTwoDigits(v)] prints one string of two characters; for
    [v] up to 99 they are the decimal digits of [v], and for a larger [v]
    the first of them is not a digit. *)
Theorem printTwoDigits_decimal (v : Z) :
  0 <= v < 256 ->
  exists s,
    File_printTwoDigits v = [Print_str s]
    /\ String.length s = 2%nat
    /\ (v <= 99 -> decimal_value 0 s = Some v)
    /\ (99 < v -> decimal_value 0 s = None).
Proof.
  intros Hv. eexists. split; [reflexivity|]. split; [reflexivity|].
  assert (forall n, 0 <= n < 256 -> digit_value (ascii_of_N (Z.to_N n))
            = if (48 <=? n) && (n <=? 57) then Some (n - 48) else None) as Hd.
  { intros n Hn. unfold digit_value. rewrite N_ascii_embedding by lia.
    now rewrite Z2N.id by lia. }
  assert (0 <= v / 10 < 26)
    by (split; [apply Z.div_pos; lia|apply Z.div_lt_upper_bound; lia]).
  assert (0 <= v mod 10 < 10) by (apply Z.mod_pos_bound; lia).
  simpl. rewrite !Hd by lia.
  split.
  - intros Hle. assert (v / 10 < 10) by (apply Z.div_lt_upper_bound; lia).
    destruct (Z.leb_spec 48 (48 + v / 10)); [|lia].
    destruct (Z.leb_spec (48 + v / 10) 57); [|lia].
    destruct (Z.leb_spec 48 (48 + v mod 10)); [|lia].
    destruct (Z.leb_spec (48 + v mod 10) 57); [|lia].
    simpl. f_equal. pose proof (Z.div_mod v 10). lia.
  - intros Hgt. assert (10 <= v / 10) by (apply Z.div_le_lower_bound; lia).
    destruct (Z.leb_spec 48 (48 + v / 10)); [|lia].
    destruct (Z.leb_spec (48 + v / 10) 57); [lia|]. reflexivity.
Qed.

Lemma int8_of_int_small (x : Z) : -128 <= x <= 127 -> int8_of_int x = x.
Proof. intros H. unfold int8_of_int. rewrite Z.mod_small by lia. lia. Qed.

Lemma int8_of_int_range (x : Z) : -128 <= int8_of_int x <= 127.
Proof. unfold int8_of_int. pose proof (Z.mod_pos_bound (x + 128) 256). lia. Qed.

Lemma ls_indent_counts (n : nat) :
  forall (fuel : nat) (i indent : Z) (out : list serial) (w : world),
    0 <= i -> indent <= 127 -> Z.of_nat n = indent - i -> (n < fuel)%nat ->
    File_ls_indent fuel i indent out w = Ret (out ++ replicate n (Print_char " ")) w.
Proof.
  induction n as [|n IH]; intros fuel i indent out w Hi Hind Hn Hfuel;
    (destruct fuel as [|fuel]; [lia|]); simpl.
  - destruct (decide (i < indent)); [lia|]. cbn [replicate].
    rewrite app_nil_r. reflexivity.
  - destruct (decide (i < indent)); [|lia].
    rewrite int8_of_int_small by lia.
    rewrite IH by lia. cbn [replicate]. rewrite <- app_assoc. reflexivity.
Qed.

Lemma ls_indent_forever (fuel : nat) :
  forall (i indent : Z) (out : list serial) (w : world),
    -128 <= i <= 127 -> 128 <= indent ->
    File_ls_indent fuel i indent out w = OutOfFuel.
Proof.
  induction fuel as [|fuel IH]; intros i indent out w Hi Hind; [reflexivity|].
  simpl. destruct (decide (i < indent)); [|lia].
  apply IH; [apply int8_of_int_range|exact Hind].
Qed.

(** X14. The indent of [ls]: up to 127 the loop prints that many spaces;
    from 128 on its counter, an [int8_t], stays below the indent and the
    loop has no end. *)
Theorem ls_indent_spaces (indent : Z) (out : list serial) (w : world) :
  (0 <= indent <= 127 ->
   forall fuel, (Z.to_nat indent < fuel)%nat ->
     File_ls_indent fuel 0 indent out w
     = Ret (out ++ replicate (Z.to_nat indent) (Print_char " ")) w)
  /\ (128 <= indent ->
      forall fuel, File_ls_indent fuel 0 indent out w = OutOfFuel).
Proof.
  split.
  - intros Hi fuel Hfuel. apply ls_indent_counts; lia.
  - intros Hi fuel. apply ls_indent_forever; lia.
Qed.

(** X15. [ls] with an indent of 128 or more does not return once the
    directory has an entry to print: whatever the fuel, the run is cut in
    the indent loop. *)
Theorem ls_indent_128_no_return (this : File) (flags indent : Z) (out : list serial)
    (w : world) (k : nat) (d2 : DIR dir_priv) (w2 : world) (fno : FILINFO)
    (d3 : DIR dir_priv) (w3 : world) :
  skips (_dir this) w k d2 w2 ->
  call_f_readdir d2 w2 = Ret (FR_OK, fno, d3) w3 ->
  char_at (fname fno) 0 <> zero ->
  char_at (fname fno) 0 <> dot ->
  128 <= indent ->
  forall fuel, File_ls fuel flags indent this out w = OutOfFuel.
Proof.
  intros Hskip Hcall Hnz Hnd Hind.
  remember (_dir this) as d eqn:Hd. revert this Hd.
  induction Hskip as [d w|d w fno1 d1 w1 k d2 w2 Hc1 Hdot1 _ IH];
    intros this Hd fuel; (destruct fuel as [|fuel]; [reflexivity|]); simpl; subst d.
  - rewrite (bind_run _ _ _ _ _ Hcall).
    rewrite bool_decide_eq_false_2 by (intros Hc; now apply Hc).
    apply Ascii.eqb_neq in Hnz, Hnd. rewrite Hnz, Hnd. simpl.
    unfold mbind, M_bind. now rewrite ls_indent_forever by lia.
  - rewrite (bind_run _ _ _ _ _ Hc1).
    destruct (dot_not_zero _ Hdot1) as [-> ->]. simpl.
    now apply IH.
Qed.

Lemma ls_indent_Ret (fuel : nat) :
  forall (i indent : Z) (out : list serial) (w : world) (out1 : list serial) (w1 : world),
    File_ls_indent fuel i indent out w = Ret out1 w1 ->
    w1 = w /\ exists more, out1 = out ++ more.
Proof.
  induction fuel as [|fuel IH]; intros i indent out w out1 w1 H; [discriminate|].
  simpl in H. destruct (decide (i < indent)).
  - apply IH in H as [-> (more & ->)]. split; [reflexivity|].
    eexists. rewrite <- app_assoc. reflexivity.
  - injection H as <- <-. split; [reflexivity|]. exists []. now rewrite app_nil_r.
Qed.

(** X16. Without the flag [LS_R], [ls] calls nothing but [f_readdir]: the
    heap is untouched, the path and the file pointer of the handle stay as
    they were, and what was printed before stays printed. *)
Theorem ls_without_LS_R (fuel : nat) :
  forall (flags indent : Z) (this : File) (out : list serial) (w : world)
         (this' : File) (out' : list serial) (w' : world),
    Z.land flags LS_R = 0 ->
    File_ls fuel flags indent this out w = Ret (this', out') w' ->
    w_heap w' = w_heap w
    /\ _name this' = _name this /\ _fil this' = _fil this
    /\ (exists evs, w_log w' = evs ++ w_log w /\ Forall is_readdir evs)
    /\ (exists more, out' = out ++ more).
Proof.
  induction fuel as [|fuel IH];
    intros flags indent this out w this' out' w' Hflag H; [discriminate|].
  simpl in H.
  apply bind_Ret in H as ([[res fno] d] & w1 & H1 & H).
  destruct (call_f_readdir_frame _ _ _ _ H1) as (Hh1 & _ & _).
  pose proof (call_f_readdir_log _ _ _ _ _ _ H1) as Hlog1.
  assert (forall this0 out0,
            _name this0 = _name this -> _fil this0 = _fil this ->
            (exists more, out0 = out ++ more) ->
            File_ls fuel flags indent this0 out0 w1 = Ret (this', out') w' ->
            w_heap w' = w_heap w
            /\ _name this' = _name this /\ _fil this' = _fil this
            /\ (exists evs, w_log w' = evs ++ w_log w /\ Forall is_readdir evs)
            /\ (exists more, out' = out ++ more)) as Hnext.
  { intros this0 out0 Hn0 Hf0 (more0 & ->) H0.
    apply (IH _ _ _ _ _ _ _ _ Hflag) in H0 as (Hh & Hn & Hf & (evs & Hl & Hevs) & (more & ->)).
    rewrite Hh, Hh1, Hn, Hf, Hn0, Hf0. repeat split; try reflexivity.
    - exists (evs ++ [EvReaddir res (fname fno)]). rewrite Hl, Hlog1. split.
      + now rewrite <- app_assoc.
      + apply Forall_app. split; [exact Hevs|]. now repeat constructor.
    - exists (more0 ++ more). now rewrite app_assoc. }
  destruct (bool_decide (res <> FR_OK) || Ascii.eqb (char_at (fname fno) 0) zero).
  { injection H as <- <- <-. rewrite Hh1. repeat split; try reflexivity.
    - exists [EvReaddir res (fname fno)]. split; [exact Hlog1|]. now repeat constructor.
    - exists []. now rewrite app_nil_r. }
  destruct (Ascii.eqb (char_at (fname fno) 0) dot).
  { apply Hnext in H; [exact H|reflexivity|reflexivity|]. exists []. now rewrite app_nil_r. }
  apply bind_Ret in H as (out1 & w2 & H2 & H).
  apply ls_indent_Ret in H2 as [-> (more1 & ->)].
  destruct (decide (Z.land (fattrib fno) AM_DIR = 0)).
  - apply Hnext in H; [exact H|reflexivity|reflexivity|].
    destruct (decide (Z.land flags LS_DATE <> 0)), (decide (Z.land flags LS_SIZE <> 0));
      eexists; rewrite <- ?app_assoc; reflexivity.
  - destruct (decide (Z.land flags LS_R <> 0)) as [Hc|_]; [contradiction|].
    apply Hnext in H; [exact H|reflexivity|reflexivity|].
    eexists. rewrite <- app_assoc. reflexivity.
Qed.

(** With a driver that binds what it opens, the handle [open] returns
    converts to true exactly when it has a path. *)
Lemma open_bool (path : string) (mode : Z) (w : world) (h : File) (w' : world) :
  binds_on_success ->
  SDClass_open path mode w = Ret h w' ->
  File_bool h w' = Ret (bool_decide (_name h <> NULL)) w'.
Proof.
  intros Hlaw H. unfold SDClass_open in H.
  apply bind_Ret in H as (file & w1 & H1 & H).
  unfold File_File, get_uninit in H1. injection H1 as <- <-.
  apply bind_Ret in H as (p & w1 & H1 & H).
  apply malloc_Ret in H1 as [[-> ->]|(l1 & -> & Hl1 & ->)]; [discriminate H|].
  apply bind_Ret in H as ([] & w1 & H1 & H). simpl in H1. injection H1 as <-.
  apply bind_Ret in H as ([] & w1 & H1 & H). simpl in H1.
  erewrite sprintf_run in H1; [ | simpl; apply lookup_insert_eq | lia ].
  injection H1 as <-. wsimpl. rewrite insert_insert_eq in H.
  apply bind_Ret in H as (u & w1 & H1 & H). injection H1 as <- <-.
  apply bind_Ret in H as (p & w1 & H1 & H).
  apply malloc_Ret in H1 as [[-> ->]|(l2 & -> & Hl2 & ->)]; [discriminate H|].
  wsimpl.
  assert (l1 <> l2) as Hne by (intros ->; now rewrite lookup_insert_eq in Hl2).
  rewrite lookup_insert_ne in Hl2 by exact Hne.
  apply bind_Ret in H as ([] & w1 & H1 & H). injection H1 as <-.
  erewrite bind_run in H; [|apply load_fil_run; simpl; apply lookup_insert_eq].
  erewrite bind_run in H; [|eapply store_fil_run; simpl; apply lookup_insert_eq].
  wsimpl. rewrite insert_insert_eq in H.
  apply bind_Ret in H as (m & w1 & H1 & H).
  set (r0 := (f_stat (w_vol w) path).1.1).
  assert (exists evs v1,
    (evs, m) = (if decide (mode = FILE_WRITE)
                then ([EvStat path r0],
                      if decide (r0 <> FR_OK)
                      then Z.lor mode FA_CREATE_ALWAYS mod 256 else mode)
                else ([], mode))
    /\ w1 = mkWorld v1
              (<[l2 := BFil (clear_fil_fs (u_fil (w_uninit w)))]>
                 (<[l1 := BChars (String.length path + 1) (Some path)]> (w_heap w)))
              (tail (tail (w_plan w))) (evs ++ w_log w) (w_uninit w))
    as (evs & v1 & Hpol & ->).
  { destruct (decide (mode = FILE_WRITE)) as [Hm|Hm].
    - unfold SDClass_exists, call_f_stat, mbind, M_bind, mret, M_ret in H1.
      wsimpl. subst r0.
      destruct (f_stat (w_vol w) path) as [[r1 fno] v1]. wsimpl.
      injection H1 as <- <-. exists [EvStat path r1], v1. split; [|reflexivity].
      now destruct (decide (r1 <> FR_OK)).
    - injection H1 as <- <-. now exists [], (w_vol w). }
  clear H1. apply bind_Ret in H as (r_ & w1 & H1 & H).
  unfold call_f_open in H1.
  erewrite on_fil_run in H1; [|simpl; apply lookup_insert_eq].
  wsimpl. rewrite insert_insert_eq in H1.
  pose proof (proj1 Hlaw v1 (clear_fil_fs (u_fil (w_uninit w))) path m) as Hfo.
  destruct (f_open v1 (clear_fil_fs (u_fil (w_uninit w))) path m) as [[r f'] v2].
  wsimpl. injection H1 as <- <-.
  destruct (decide (r <> FR_OK)) as [Hr|Hr].
  - apply bind_Ret in H as ([] & w1 & H1 & H).
    apply free_Ret in H1 as [_ ->]. wsimpl.
    rewrite delete_insert_id in H by (now rewrite lookup_insert_ne).
    apply bind_Ret in H as ([r2_ d_] & w1 & H1 & H).
    unfold call_f_opendir in H1. wsimpl.
    pose proof (proj2 Hlaw v2 (clear_dir_fs (u_dir (w_uninit w))) path) as Hfd.
    destruct (f_opendir v2 (clear_dir_fs (u_dir (w_uninit w))) path) as [[r2 d] v3].
    injection H1 as <- <- <-.
    destruct (decide (r2 <> FR_OK)) as [Hr2|Hr2].
    + apply bind_Ret in H as ([] & w1 & H1 & H).
      apply free_Ret in H1 as [_ ->]. wsimpl.
      injection H as <- <-. reflexivity.
    + injection H as <- <-.
      assert (r2 = FR_OK) as -> by (destruct (decide (r2 = FR_OK)); [done|contradiction]).
      specialize (Hfd eq_refl). simpl in Hfd. apply Z.eqb_neq in Hfd.
      unfold File_bool. simpl. now rewrite Hfd.
  - injection H as <- <-.
    assert (r = FR_OK) as -> by (destruct (decide (r = FR_OK)); [done|contradiction]).
    specialize (Hfo eq_refl). simpl in Hfo. apply Z.eqb_neq in Hfo.
    unfold File_bool. simpl.
    erewrite bind_run; [|apply load_fil_run; simpl; apply lookup_insert_eq].
    unfold mret, M_ret. now rewrite Hfo.
Qed.

#[local] Arguments File_bool : simpl never.

(** X17. With a driver that binds what it opens, a [ls] that returns
    leaves the heap as it found it, also with [LS_R]: each child path is
    released, and each child handle is closed when it was opened and holds
    no block when it was not.  The path and the file pointer of the handle
    stay as they were. *)
Theorem ls_restores_heap (fuel : nat) :
  forall (flags indent : Z) (this : File) (out : list serial) (w : world)
         (this' : File) (out' : list serial) (w' : world),
    binds_on_success ->
    File_ls fuel flags indent this out w = Ret (this', out') w' ->
    w_heap w' = w_heap w /\ _name this' = _name this /\ _fil this' = _fil this.
Proof.
  induction fuel as [|fuel IH];
    intros flags indent this out w this' out' w' Hlaw H; [discriminate|].
  simpl in H.
  apply bind_Ret in H as ([[res fno] d] & w1 & H1 & H).
  destruct (call_f_readdir_frame _ _ _ _ H1) as (Hh1 & _ & _).
  assert (forall out0 w0,
            w_heap w0 = w_heap w ->
            File_ls fuel flags indent (set_dir d this) out0 w0 = Ret (this', out') w' ->
            w_heap w' = w_heap w /\ _name this' = _name this /\ _fil this' = _fil this)
    as Hnext.
  { intros out0 w0 Hw0 H0. apply (IH _ _ _ _ _ _ _ _ Hlaw) in H0 as (Hh & Hn & Hf).
    now rewrite Hh, Hw0, Hn, Hf. }
  destruct (bool_decide (res <> FR_OK) || Ascii.eqb (char_at (fname fno) 0) zero).
  { injection H as <- <- <-. now rewrite Hh1. }
  destruct (Ascii.eqb (char_at (fname fno) 0) dot).
  { now apply Hnext in H. }
  apply bind_Ret in H as (out1 & w2 & H2 & H).
  apply ls_indent_Ret in H2 as [-> _].
  destruct (decide (Z.land (fattrib fno) AM_DIR = 0)).
  { now apply Hnext in H. }
  destruct (decide (Z.land flags LS_R <> 0)); [|now apply Hnext in H].
  apply bind_Ret in H as (name & w2 & H2 & H). simpl in H2.
  apply load_str_Ret in H2 as (-> & l & cap & Hl & Hname).
  apply bind_Ret in H as (fullPath & w2 & H2 & H).
  apply malloc_Ret in H2 as [[-> ->]|(lp & -> & Hlp & ->)].
  { destruct (decide (NULL <> NULL)) as [Hc|_]; [contradiction|].
    now apply Hnext in H. }
  destruct (decide (Some lp <> NULL)) as [_|Hc]; [|exfalso; apply Hc; discriminate].
  apply bind_Ret in H as ([] & w3 & H3 & H).
  erewrite sprintf_run in H3;
    [|simpl; apply lookup_insert_eq|rewrite !length_app; simpl; lia].
  injection H3 as <-. wsimpl. rewrite insert_insert_eq in H.
  erewrite bind_run in H; [|eapply load_str_run; simpl; apply lookup_insert_eq].
  apply bind_Ret in H as (h & w4 & Ho & H).
  rewrite (bind_run _ _ _ _ _ (open_bool _ _ _ _ _ Hlaw Ho)) in H.
  apply open_Ret in Ho as (l1 & l2 & evs & m & ro & f' & d0 & Hl1 & Hl2 & Hne & _ & Ho).
  simpl in Hl1, Hl2.
  assert (l1 <> lp) as Hl1p by (intros ->; now rewrite lookup_insert_eq in Hl1).
  assert (l2 <> lp) as Hl2p by (intros ->; now rewrite lookup_insert_eq in Hl2).
  rewrite lookup_insert_ne in Hl1, Hl2 by congruence.
  apply bind_Ret in H as (out2 & w5 & H5 & H).
  apply bind_Ret in H as ([] & w6 & H6 & H).
  apply free_Ret in H6 as [_ ->].
  apply Hnext in H; [exact H|]. simpl. rewrite <- Hh1.
  destruct (bool_decide (_name h <> NULL)) eqn:Hb.
  - apply bool_decide_eq_true in Hb.
    apply bind_Ret in H5 as ([h1 out3] & w7 & H7 & H5).
    apply bind_Ret in H5 as (h2 & w8 & H8 & H5). injection H5 as _ <-.
    apply (IH _ _ _ _ _ _ _ _ Hlaw) in H7 as (Hh7 & Hn7 & Hf7).
    apply close_Ret in H8 as [(Hn8 & _)|(l' & Hn8 & _ & _ & Hh8)];
      [rewrite Hn7 in Hn8; contradiction|].
    rewrite Hh8, Hf7, Hh7. rewrite Hn7 in Hn8.
    destruct Ho as [(_ & -> & _ & Hh4)|(_ & r2 & _ & [(_ & -> & Hh4)|(_ & -> & _)])];
      simpl in *; try contradiction; injection Hn8 as <-; rewrite Hh4;
      apply map_eq; intros i;
      rewrite ?lookup_delete, ?lookup_insert; repeat case_decide; congruence.
  - apply bool_decide_eq_false in Hb. injection H5 as _ <-.
    destruct Ho as [(_ & -> & _)|(_ & r2 & _ & [(_ & -> & _)|(_ & -> & Hh4)])];
      simpl in Hb; try (exfalso; apply Hb; discriminate).
    rewrite Hh4. simpl. now apply delete_insert_id.
Qed.


(** X18. After a [close] that returns, the handle converts to false, and
    [isDirectory()] on it calls [Error_Handler]. *)
Theorem closed_handle_is_false (this : File) (w : world) (h : File) (w' : world) :
  File_close this w = Ret h w' ->
  File_bool h w' = Ret false w' /\ File_isDirectory h w' = Abort.
Proof.
  intros H.
  assert (_name h = NULL) as Hn
    by (apply close_Ret in H as [(Hn & -> & _)|(l & _ & Hn & _)]; exact Hn).
  split; [now apply File_bool_null|].
  unfold File_isDirectory. now rewrite Hn.
Qed.

(** X19. With a driver that binds what it opens, the handle that [open]
    returns converts to true exactly when one of the two attempts
    succeeded, that is when its stored result code is [FR_OK]. *)
Theorem open_true_iff_success (path : string) (mode : Z) (w : world)
    (h : File) (w' : world) :
  binds_on_success ->
  SDClass_open path mode w = Ret h w' ->
  exists b, File_bool h w' = Ret b w' /\ (b = true <-> _res h = FR_OK).
Proof.
  intros Hlaw H. exists (bool_decide (_name h <> NULL)).
  split; [now apply (open_bool path mode w)|].
  apply open_Ret in H as (l1 & l2 & evs & m & r & f' & d & _ & _ & _ & _ & H).
  destruct H as [(_ & -> & _)|(_ & r2 & _ & [(_ & -> & _)|(Hr2 & -> & _)])]; simpl.
  - now split.
  - now split.
  - split; [discriminate|intros Hc; contradiction].
Qed.

End Properties.

(** * The properties on a card *)

#[local] Existing Instance RamFs.driver.

(** C9. [mkdir] returns true exactly when the driver's [f_mkdir] returns
    [FR_OK] (created) or [FR_EXIST]; on the blank card, [mkdir("/a")] is
    true twice (created, then already there) and [mkdir("/x/y")], whose
    parent is missing, is false. *)
Theorem mkdir_true_iff_created_or_exists :
  (forall (D : Driver) (path : string) (w : world),
      exists b w',
        SDClass_mkdir path w = Ret b w'
        /\ (b = true <->
            (f_mkdir (w_vol w) path).1 = FR_OK \/ (f_mkdir (w_vol w) path).1 = FR_EXIST))
  /\ (let run :=
        (a ← SDClass_mkdir "/a"; b ← SDClass_mkdir "/a"; c ← SDClass_mkdir "/x/y";
         mret (a, b, c)) (RamFs.boot RamFs.blank []) in
      value run = Some (true, true, false)
      /\ trace run =
           [EvMkdir "/x/y" FR_NO_PATH; EvMkdir "/a" FR_EXIST; EvMkdir "/a" FR_OK]
      /\ volume_after run = Some (RamFs.mkVolume true [("/a", RamFs.NDir)])).
Proof.
  split.
  - intros D path w. destruct (mkdir_Ret path w) as (b & w' & H & _ & _ & Hb).
    now exists b, w'.
  - vm_compute. repeat split.
Qed.

(** C2, as the code has it.  [open] adds [FA_CREATE_ALWAYS] to the mode it
    gives to [f_open] when the caller's mode is [FILE_WRITE] itself and
    [f_stat] finds no entry at the path; in every other case [f_open] gets
    the caller's mode.  When [f_open] then returns [FR_OK], the handle has
    the path and the file object and no directory, and converts to true
    once the driver has bound the object.  On the card,
    [open("/new.txt", FILE_WRITE)] makes an empty file and a handle that
    converts to true, and [open("/b.txt", FILE_WRITE)] leaves the byte of
    the file that is there. *)
Theorem open_creates_for_FILE_WRITE :
  (forall (D : Driver) (path : string) (mode : Z) (w : world) (h : File) (w' : world),
      SDClass_open path mode w = Ret h w' ->
      exists m r before after,
        m = (if decide (mode = FILE_WRITE /\ (f_stat (w_vol w) path).1.1 <> FR_OK)
             then Z.lor FILE_WRITE FA_CREATE_ALWAYS else mode)
        /\ before = (if decide (mode = FILE_WRITE)
                     then [EvStat path (f_stat (w_vol w) path).1.1] else [])
        /\ w_log w' = after ++ EvOpen path m r :: before ++ w_log w
        /\ (r <> FR_OK -> exists r2, after = [EvOpendir path r2])
        /\ (r = FR_OK ->
            after = []
            /\ exists l1 l2 f',
                _name h = Some l1 /\ _fil h = Some l2
                /\ w_heap w' !! l2 = Some (BFil f')
                /\ ~ dir_bound h
                /\ (fil_fs f' <> 0 ->
                    file_bound h w' /\ File_bool h w' = Ret true w')))
  /\ (let run :=
        (h ← SDClass_open "/new.txt" FILE_WRITE; b ← File_bool h; sz ← File_size h;
         mret (b, sz)) (RamFs.boot RamFs.card []) in
      value run = Some (true, 0)
      /\ trace run = [EvOpen "/new.txt" 10 FR_OK; EvStat "/new.txt" FR_NO_FILE]
      /\ volume_after run =
           Some (RamFs.mkVolume true
                   (RamFs.tree RamFs.card ++ [("/new.txt", RamFs.NFile [])])))
  /\ (let run :=
        (h ← SDClass_open "/b.txt" FILE_WRITE; b ← File_bool h; sz ← File_size h;
         mret (b, sz)) (RamFs.boot RamFs.card []) in
      value run = Some (true, 1)
      /\ trace run = [EvOpen "/b.txt" 2 FR_OK; EvStat "/b.txt" FR_OK]
      /\ volume_after run = Some RamFs.card).
Proof.
  split; [|split].
  - intros D path mode w h w'. apply open_create_policy.
  - vm_compute. repeat split.
  - vm_compute. repeat split.
Qed.

(** C2 fails as stated.  The mode 3 ([FA_READ | FA_WRITE]) requests write
    access and "/new.txt" is not on the card, yet [f_open] gets the mode 3,
    without the create flag ([f_stat] is not even called), no file is made
    and the handle converts to false.  And with [FILE_WRITE] itself, at
    "/x/y.txt" whose parent is missing, the flag is added but [f_open]
    fails: no file, and a handle that converts to false. *)
Lemma open_write_without_create :
  requests_write 3 = true
  /\ (f_stat RamFs.card "/new.txt").1.1 = FR_NO_FILE
  /\ (let run := (h ← SDClass_open "/new.txt" 3; File_bool h) (RamFs.boot RamFs.card []) in
      value run = Some false
      /\ trace run = [EvOpendir "/new.txt" FR_NO_PATH; EvOpen "/new.txt" 3 FR_NO_FILE]
      /\ volume_after run = Some RamFs.card)
  /\ (f_stat RamFs.card "/x/y.txt").1.1 = FR_NO_PATH
  /\ (let run :=
        (h ← SDClass_open "/x/y.txt" FILE_WRITE; File_bool h) (RamFs.boot RamFs.card []) in
      value run = Some false
      /\ trace run = [EvOpendir "/x/y.txt" FR_NO_PATH; EvOpen "/x/y.txt" 10 FR_NO_PATH;
                      EvStat "/x/y.txt" FR_NO_PATH]
      /\ volume_after run = Some RamFs.card).
Proof. vm_compute. repeat split. Qed.

(** C3 fails on the code.  "/a/f.txt" holds the bytes 'h', 'i' and 0xFF:
    the four calls of [read()] return 104, 105, then -1 for the byte 0xFF
    (no error, not the end of the file), then, at the end of the file, where
    [f_read] returns [FR_OK] and no byte, what the local [data] held (65
    here) and not -1.  The byte 0xC8 of "/b.txt" is returned as -56. *)
Theorem read_byte_as_int8_and_no_eof_test :
  (let run :=
     (h ← SDClass_open "/a/f.txt" FILE_READ;
      a ← File_read h; b ← File_read h; c ← File_read h; d ← File_read h;
      mret [a; b; c; d]) (RamFs.boot RamFs.card []) in
   value run = Some [104; 105; -1; 65]
   /\ trace run = [EvRead 1 FR_OK 0; EvRead 1 FR_OK 1; EvRead 1 FR_OK 1;
                   EvRead 1 FR_OK 1; EvOpen "/a/f.txt" 1 FR_OK])
  /\ (let run :=
        (h ← SDClass_open "/b.txt" FILE_READ; File_read h) (RamFs.boot RamFs.card []) in
      value run = Some (-56) /\ trace run = [EvRead 1 FR_OK 1; EvOpen "/b.txt" 1 FR_OK]).
Proof. vm_compute. repeat split. Qed.

(** C4 fails as stated.  "/a/f.txt" (3 bytes) is open and the card is then
    taken out: [size()] is 3, and [seek(1)] returns false, because
    [f_lseek] fails. *)
Lemma seek_within_size_can_fail :
  SDClass_open "/a/f.txt" FILE_READ (RamFs.boot RamFs.card [])
  = Ret RamFs.f_txt (RamFs.f_txt_world RamFs.card)
  /\ (let w := RamFs.f_txt_world RamFs.card_removed in
      File_size RamFs.f_txt w = Ret 3 w
      /\ 0 <= 1 <= 3
      /\ value (File_seek RamFs.f_txt 1 w) = Some false
      /\ trace (File_seek RamFs.f_txt 1 w)
         = [EvLseek 1 FR_INVALID_OBJECT; EvOpen "/a/f.txt" 1 FR_OK]).
Proof. vm_compute. repeat split; discriminate. Qed.

(** ** The theorems at work on the card *)

Lemma open_both_attempts_fail_witness :
  SDClass_open "/nope" FILE_READ (RamFs.boot RamFs.card []) = Ret RamFs.nope RamFs.nope_world
  /\ _name RamFs.nope = NULL /\ _fil RamFs.nope = NULL
  /\ w_heap RamFs.nope_world = w_heap (RamFs.boot RamFs.card [])
  /\ File_bool RamFs.nope RamFs.nope_world = Ret false RamFs.nope_world.
Proof.
  split; [vm_compute; reflexivity|].
  apply (open_both_attempts_fail "/nope" FILE_READ (RamFs.boot RamFs.card [])
           RamFs.nope RamFs.nope_world 1 FR_NO_FILE FR_NO_PATH []);
    [vm_compute; reflexivity | reflexivity | discriminate | discriminate].
Defined.

Lemma open_creates_for_FILE_WRITE_witness :
  exists h w',
    SDClass_open "/new.txt" FILE_WRITE (RamFs.boot RamFs.card []) = Ret h w'
    /\ exists r, w_log w' = [EvOpen "/new.txt" 10 r; EvStat "/new.txt" FR_NO_FILE]
                 /\ r = FR_OK /\ File_bool h w' = Ret true w'.
Proof.
  eexists _, _. split; [vm_compute; reflexivity|].
  edestruct (proj1 open_creates_for_FILE_WRITE RamFs.driver "/new.txt" FILE_WRITE
               (RamFs.boot RamFs.card []))
    as (m & r & before & after & Hm & Hb & Hlog & _ & Hok);
    [vm_compute; reflexivity|].
  vm_compute in Hm, Hb. subst m before.
  assert (r = FR_OK) as Hr.
  { destruct after as [|e1 [|e2 [|e3 after]]]; simpl in Hlog; congruence. }
  destruct (Hok Hr) as (-> & l1 & l2 & f' & _ & Hf & Hl & _ & Hb).
  exists r. split; [exact Hlog|]. split; [exact Hr|].
  apply Hb. injection Hf as <-. vm_compute in Hl. injection Hl as <-. discriminate.
Defined.

Lemma seek_true_iff_witness :
  exists b w',
    File_seek RamFs.f_txt 3 (RamFs.f_txt_world RamFs.card) = Ret b w'
    /\ b = true
    /\ File_position RamFs.f_txt w' = Ret 3 w'.
Proof.
  destruct (seek_true_iff RamFs.f_txt (RamFs.f_txt_world RamFs.card) 2%positive
              (mkFIL 1 3 0 ("/a/f.txt", 1)) 3)
    as (b & w' & Hs & Hiff & _ & Hpos);
    [reflexivity | vm_compute; reflexivity | lia |].
  assert (b = true) as Hb by (apply Hiff; vm_compute; split; [discriminate|reflexivity]).
  exists b, w'. split; [exact Hs|]. split; [exact Hb|]. now apply Hpos.
Defined.

Lemma openNextFile_invalid_handle_witness :
  (exists r w3,
      File_openNextFile 2 (RamFs.root_at 3) FILE_READ (RamFs.root_world [])
      = Ret (r, RamFs.root_at 4) w3
      /\ _name r = NULL /\ _fil r = NULL /\ _res r = FR_OK
      /\ File_bool r w3 = Ret false w3)
  /\ (exists r w4,
         File_openNextFile 2 (RamFs.root_at 1) FILE_READ (RamFs.root_world [false])
         = Ret (r, RamFs.root_at 3) w4
         /\ _name r = NULL /\ _fil r = NULL /\ _res r = FR_NOT_ENOUGH_CORE
         /\ File_bool r w4 = Ret false w4
         /\ w_heap w4 = w_heap (RamFs.root_world [false])).
Proof.
  split.
  - edestruct (openNextFile_invalid_handle (RamFs.root_at 3) FILE_READ
                 (RamFs.root_world []) 1) as [HA _];
      [ eapply skips_S; [vm_compute; reflexivity | reflexivity | apply skips_O]
      | vm_compute; reflexivity
      | apply (le_n 2)
      | ].
    destruct HA as (r & H); [right; reflexivity|]. eexists r, _. exact H.
  - edestruct (openNextFile_invalid_handle (RamFs.root_at 1) FILE_READ
                 (RamFs.root_world [false]) 1) as [_ HB];
      [ eapply skips_S; [vm_compute; reflexivity | reflexivity | apply skips_O]
      | vm_compute; reflexivity
      | apply (le_n 2)
      | ].
    destruct HB as (r & w4 & H);
      [reflexivity | discriminate | discriminate
      | now exists 1%positive, 2%nat, "/" | reflexivity | ].
    exists r, w4. exact H.
Defined.

Lemma close_twice_witness :
  exists h1 w1,
    File_close RamFs.f_txt (RamFs.f_txt_world RamFs.card) = Ret h1 w1
    /\ File_close h1 w1 = Ret h1 w1
    /\ _name h1 = NULL
    /\ _fil h1 = NULL
    /\ w_heap w1 = ∅.
Proof.
  eexists _, _. split; [vm_compute; reflexivity|].
  edestruct (close_twice RamFs.f_txt (RamFs.f_txt_world RamFs.card)) as (H1 & H2 & H3);
    [vm_compute; reflexivity|].
  split; [exact H1|]. split; [exact H2|]. split; [apply H3; discriminate|].
  vm_compute. reflexivity.
Defined.

Lemma at_most_one_resource_bound_witness :
  at_most_one_bound RamFs.f_txt (RamFs.f_txt_world RamFs.card)
  /\ exists h w',
      File_close RamFs.f_txt (RamFs.f_txt_world RamFs.card) = Ret h w'
      /\ at_most_one_bound h w'.
Proof.
  destruct (@at_most_one_resource_bound RamFs.driver) as (_ & Hopen & _ & _ & Hclose).
  assert (at_most_one_bound RamFs.f_txt (RamFs.f_txt_world RamFs.card)) as H.
  { apply (Hopen "/a/f.txt" FILE_READ (RamFs.boot RamFs.card [])).
    vm_compute. reflexivity. }
  split; [exact H|].
  eexists _, _. split; [vm_compute; reflexivity|].
  apply (Hclose RamFs.f_txt (RamFs.f_txt_world RamFs.card)); [exact H|].
  vm_compute. reflexivity.
Defined.

Lemma available_min_witness :
  File_size RamFs.f_txt (RamFs.f_txt_world RamFs.card)
  = Ret 3 (RamFs.f_txt_world RamFs.card)
  /\ File_position RamFs.f_txt (RamFs.f_txt_world RamFs.card)
     = Ret 0 (RamFs.f_txt_world RamFs.card)
  /\ File_available RamFs.f_txt (RamFs.f_txt_world RamFs.card)
     = Ret (Z.min (3 - 0) 0x7FFF) (RamFs.f_txt_world RamFs.card)
  /\ 0 <= Z.min (3 - 0) 0x7FFF.
Proof.
  split; [vm_compute; reflexivity|]. split; [vm_compute; reflexivity|].
  apply (available_min RamFs.f_txt (RamFs.f_txt_world RamFs.card) 3 0);
    [vm_compute; reflexivity | vm_compute; reflexivity | lia].
Defined.

Lemma mkdir_true_iff_created_or_exists_witness :
  exists b w',
    SDClass_mkdir "/a" (RamFs.boot RamFs.card []) = Ret b w' /\ b = true.
Proof.
  destruct (proj1 mkdir_true_iff_created_or_exists RamFs.driver "/a"
              (RamFs.boot RamFs.card [])) as (b & w' & H & Hb).
  exists b, w'. split; [exact H|]. apply Hb. right. vm_compute. reflexivity.
Defined.

Lemma name_after_last_slash_witness :
  File_name RamFs.f_txt (RamFs.f_txt_world RamFs.card)
  = Ret (Some (1%positive, 3%nat)) (RamFs.f_txt_world RamFs.card)
  /\ str_at "/a/f.txt" 3 = "f.txt".
Proof.
  apply (proj1 (name_after_last_slash RamFs.f_txt (RamFs.f_txt_world RamFs.card)
                  1%positive 9 "/a/f.txt" eq_refl ltac:(vm_compute; reflexivity))
           "/a" "f.txt" eq_refl).
  vm_compute. intros [H|[H|[H|[H|[H|[]]]]]]; discriminate H.
Defined.

(** ** The further properties at work *)

Lemma RamFs_binds_on_success : @binds_on_success RamFs.driver.
Proof.
  split.
  - intros v f p m. simpl. unfold RamFs.open.
    repeat (match goal with
            | |- context [if ?b then _ else _] => destruct b
            | |- context [match ?x with _ => _ end] => destruct x
            end; simpl); intros H; try discriminate H; discriminate.
  - intros v d p. simpl. unfold RamFs.opendir.
    repeat (match goal with
            | |- context [if ?b then _ else _] => destruct b
            end; simpl); intros H; try discriminate H; discriminate.
Qed.

Lemma open_then_close_restores_heap_witness :
  SDClass_open "/a/f.txt" FILE_READ (RamFs.boot RamFs.card [])
  = Ret RamFs.f_txt (RamFs.f_txt_world RamFs.card)
  /\ exists h' w2,
      File_close RamFs.f_txt (RamFs.f_txt_world RamFs.card) = Ret h' w2
      /\ w_heap w2 = w_heap (RamFs.boot RamFs.card [])
      /\ _name h' = NULL /\ _fil h' = NULL.
Proof.
  split; [vm_compute; reflexivity|].
  apply (open_then_close_restores_heap "/a/f.txt" FILE_READ (RamFs.boot RamFs.card [])).
  vm_compute. reflexivity.
Defined.

Lemma open_aborts_iff_malloc_fails_witness :
  SDClass_open "/a" FILE_READ (RamFs.boot RamFs.card [true; false]) = Abort
  /\ exists h w', SDClass_open "/a" FILE_READ (RamFs.boot RamFs.card []) = Ret h w'.
Proof.
  split.
  - apply (proj1 (open_aborts_iff_malloc_fails "/a" FILE_READ
                    (RamFs.boot RamFs.card [true; false]))).
    right. reflexivity.
  - apply (proj2 (open_aborts_iff_malloc_fails "/a" FILE_READ (RamFs.boot RamFs.card [])));
      reflexivity.
Defined.

Lemma isDirectory_after_open_witness :
  File_isDirectory RamFs.nope RamFs.nope_world = Abort
  /\ File_isDirectory RamFs.f_txt (RamFs.f_txt_world RamFs.card)
     = Ret false (RamFs.f_txt_world RamFs.card)
  /\ File_isDirectory (RamFs.root_at 0) (RamFs.root_world [])
     = Ret true (RamFs.root_world []).
Proof.
  split; [|split].
  - apply (proj1 (isDirectory_after_open "/nope" FILE_READ (RamFs.boot RamFs.card [])
                    RamFs.nope RamFs.nope_world ltac:(vm_compute; reflexivity))).
    discriminate.
  - apply (proj1 (proj2 (isDirectory_after_open "/a/f.txt" FILE_READ
                           (RamFs.boot RamFs.card []) RamFs.f_txt
                           (RamFs.f_txt_world RamFs.card)
                           ltac:(vm_compute; reflexivity)))).
    + reflexivity.
    + exists 2%positive, (mkFIL 1 3 0 ("/a/f.txt", 1)).
      split; [reflexivity|]. split; [vm_compute; reflexivity | discriminate].
  - apply (proj2 (proj2 (isDirectory_after_open "/" FILE_READ
                           (RamFs.boot RamFs.card []) (RamFs.root_at 0)
                           (RamFs.root_world [])
                           ltac:(vm_compute; reflexivity)))).
    + reflexivity.
    + discriminate.
Defined.

Lemma peek_seeks_back_witness :
  File_peek RamFs.f_txt (Card.reading "/a/f.txt" 3 1)
  = Ret 105 (mkWorld RamFs.card (w_heap (Card.reading "/a/f.txt" 3 1)) []
               [EvLseek 1 FR_OK; EvRead 1 FR_OK 1] RamFs.junk).
Proof.
  eapply (peek_seeks_back RamFs.f_txt (Card.reading "/a/f.txt" 3 1) 1 105 _ true).
  - vm_compute. reflexivity.
  - vm_compute. reflexivity.
  - vm_compute. reflexivity.
  - vm_compute. reflexivity.
Defined.

Lemma peek_without_byte_witness :
  (exists w2,
      File_peek RamFs.f_txt (Card.reading "/a/f.txt" 3 3) = Ret 65 w2
      /\ File_position RamFs.f_txt w2 = Ret 2 w2)
  /\ (exists w1,
         File_peek RamFs.f_txt (Card.reading "/.hid" 0 0) = Ret 65 w1
         /\ w_log w1 = [EvRead 1 FR_OK 0]).
Proof.
  split.
  - eexists. split.
    + eapply (proj1 (peek_without_byte RamFs.f_txt (Card.reading "/a/f.txt" 3 3) 3 65 _
                       ltac:(vm_compute; reflexivity) ltac:(vm_compute; reflexivity)
                       ltac:(vm_compute; reflexivity)) ltac:(lia) true).
      vm_compute. reflexivity.
    + vm_compute. reflexivity.
  - eexists. split.
    + eapply (proj2 (peek_without_byte RamFs.f_txt (Card.reading "/.hid" 0 0) 0 65 _
                       ltac:(vm_compute; reflexivity) ltac:(vm_compute; reflexivity)
                       ltac:(vm_compute; reflexivity)) eq_refl 0).
      * vm_compute. reflexivity.
      * reflexivity.
    + reflexivity.
Defined.

Lemma read_buf_result_witness :
  exists n w',
    File_read_buf RamFs.f_txt 8 (Card.reading "/a/f.txt" 3 1) = Ret (n, ["i"%byte; xff]) w'
    /\ n = 2
    /\ w_log w' = [EvRead 8 FR_OK 2].
Proof.
  destruct (read_buf_result RamFs.f_txt (Card.reading "/a/f.txt" 3 1) 2%positive
              (mkFIL 1 3 1 ("/a/f.txt", 1)) 8 FR_OK ["i"%byte; xff]
              (mkFIL 1 3 3 ("/a/f.txt", 1)) RamFs.card)
    as (n & w' & Hr & _ & Hn & Hlog);
    [reflexivity | vm_compute; reflexivity | vm_compute; reflexivity | reflexivity |].
  exists n, w'. split; [exact Hr|]. split; [now apply Hn | exact Hlog].
Defined.

Lemma rewindDirectory_on_file_witness :
  File_rewindDirectory RamFs.f_txt (RamFs.f_txt_world RamFs.card)
  = Ret RamFs.f_txt (RamFs.f_txt_world RamFs.card).
Proof.
  apply (rewindDirectory_on_file RamFs.f_txt (RamFs.f_txt_world RamFs.card)).
  - discriminate.
  - exists 2%positive, (mkFIL 1 3 0 ("/a/f.txt", 1)).
    split; [reflexivity|]. split; [vm_compute; reflexivity | discriminate].
  - intros H. apply H. reflexivity.
Defined.

Lemma rewindDirectory_on_directory_witness :
  exists this' w',
    File_rewindDirectory (RamFs.root_at 2) (RamFs.root_world []) = Ret this' w'
    /\ this' = RamFs.root_at 0
    /\ w_log w' = EvOpendir "/" FR_OK :: EvClosedir FR_OK :: w_log (RamFs.root_world [])
    /\ w_heap w' = w_heap (RamFs.root_world []).
Proof.
  destruct (rewindDirectory_on_directory (RamFs.root_at 2) (RamFs.root_world [])
              1%positive 2 "/" FR_OK FR_OK (mkDIR 0 ("/", 2%nat)) (mkDIR 1 ("/", O))
              RamFs.card RamFs.card)
    as (this' & w' & Hr & Hn & Hf & Hres & Hd & Hlog & Hheap);
    [reflexivity | vm_compute; reflexivity | discriminate | reflexivity | reflexivity |].
  exists this', w'. split; [exact Hr|]. split; [|split; [exact Hlog | exact Hheap]].
  destruct this'; simpl in *. now subst.
Defined.


Lemma openNextFile_then_close_restores_heap_witness :
  exists r this' w1 h' w2,
    File_openNextFile 2 (RamFs.root_at 2) FILE_READ (RamFs.root_world [])
    = Ret (r, this') w1
    /\ _fil r = Some 4%positive
    /\ File_close r w1 = Ret h' w2
    /\ w_heap w2 = w_heap (RamFs.root_world []).
Proof.
  edestruct (openNextFile_then_close_restores_heap 2 (RamFs.root_at 2) FILE_READ
               (RamFs.root_world [])) as (h' & w2 & Hc & Hh);
    [vm_compute; reflexivity|].
  eexists _, _, _, h', w2. split; [vm_compute; reflexivity|].
  split; [reflexivity|]. split; [exact Hc | exact Hh].
Defined.

Lemma openNextFile_child_name_witness :
  exists r this' w' l fn pre,
    File_openNextFile 2 (RamFs.root_at 2) FILE_READ (RamFs.root_world [])
    = Ret (r, this') w'
    /\ _name r = Some l
    /\ fn = "b.txt"
    /\ File_name r w' = Ret (Some (l, S (String.length pre))) w'
    /\ str_at (pre +:+ String slash fn) (S (String.length pre)) = fn.
Proof.
  edestruct (openNextFile_child_name 2 (RamFs.root_at 2) FILE_READ (RamFs.root_world []))
    as (fn & cap & pre & Hlast & _ & Hname);
    [vm_compute; reflexivity | reflexivity |].
  vm_compute in Hlast. injection Hlast as <-.
  eexists _, _, _, _, _, pre. split; [vm_compute; reflexivity|].
  split; [reflexivity|]. split; [reflexivity|].
  apply Hname. vm_compute. intros [H|[H|[H|[H|[H|[]]]]]]; discriminate H.
Defined.

Lemma openNextFile_never_undefined_witness :
  File_openNextFile 2 (RamFs.root_at 0) FILE_READ (RamFs.root_world [true; false]) <> Undef.
Proof.
  apply (openNextFile_never_undefined 2 (RamFs.root_at 0) FILE_READ
           (RamFs.root_world [true; false]) 1%positive 2 "/");
    [reflexivity | vm_compute; reflexivity].
Defined.

Lemma printTwoDigits_decimal_witness :
  (exists s, File_printTwoDigits 7 = [Print_str s] /\ decimal_value 0 s = Some 7)
  /\ (exists s, File_printTwoDigits 123 = [Print_str s] /\ decimal_value 0 s = None).
Proof.
  split.
  - destruct (printTwoDigits_decimal 7 ltac:(lia)) as (s & Hs & _ & Hd & _).
    exists s. split; [exact Hs|]. apply Hd. lia.
  - destruct (printTwoDigits_decimal 123 ltac:(lia)) as (s & Hs & _ & _ & Hd).
    exists s. split; [exact Hs|]. apply Hd. lia.
Defined.

Lemma ls_indent_spaces_witness :
  File_ls_indent 4 0 3 [Println] (RamFs.boot RamFs.card [])
  = Ret [Println; Print_char " "; Print_char " "; Print_char " "] (RamFs.boot RamFs.card [])
  /\ File_ls_indent 1000 0 128 [Println] (RamFs.boot RamFs.card []) = OutOfFuel.
Proof.
  split.
  - apply (proj1 (ls_indent_spaces 3 [Println] (RamFs.boot RamFs.card [])) ltac:(lia) 4%nat).
    vm_compute. lia.
  - apply (proj2 (ls_indent_spaces 128 [Println] (RamFs.boot RamFs.card [])) ltac:(lia)).
Defined.

#[local] Existing Instance Card.header.

Lemma ls_indent_128_no_return_witness :
  File_ls 1000 0 128 (RamFs.root_at 1) [] (RamFs.root_world []) = OutOfFuel.
Proof.
  eapply (ls_indent_128_no_return (RamFs.root_at 1) 0 128 [] (RamFs.root_world []) 1);
    [ eapply skips_S; [vm_compute; reflexivity | reflexivity | apply skips_O]
    | vm_compute; reflexivity
    | vm_compute; discriminate
    | vm_compute; discriminate
    | lia ].
Defined.

Lemma ls_without_LS_R_witness :
  exists this' out' w',
    File_ls 10 3 0 (RamFs.root_at 0) [] (RamFs.root_world []) = Ret (this', out') w'
    /\ w_heap w' = w_heap (RamFs.root_world [])
    /\ _name this' = Some 1%positive /\ _fil this' = NULL
    /\ exists evs, w_log w' = evs ++ w_log (RamFs.root_world []) /\ Forall is_readdir evs.
Proof.
  edestruct (ls_without_LS_R 10 3 0 (RamFs.root_at 0) [] (RamFs.root_world []))
    as (Hh & Hn & Hf & Hlog & _);
    [reflexivity | vm_compute; reflexivity |].
  eexists _, _, _. split; [vm_compute; reflexivity|].
  split; [exact Hh|]. split; [exact Hn|]. split; [exact Hf | exact Hlog].
Defined.

Lemma ls_restores_heap_witness :
  exists this' w',
    File_ls 20 6 0 Card.d_dir [] Card.d_world
    = Ret (this',
           [Print_str "e"; Println; Print_char " "; Print_char " "; Print_str "g.txt";
            Print_char " "; Print_num 1; Println; Print_str "h.txt"; Print_char " ";
            Print_num 0; Println]) w'
    /\ w_heap w' = w_heap Card.d_world
    /\ _name this' = Some 1%positive /\ _fil this' = NULL.
Proof.
  edestruct (ls_restores_heap 20 6 0 Card.d_dir [] Card.d_world)
    as (Hh & Hn & Hf);
    [exact RamFs_binds_on_success | vm_compute; reflexivity |].
  eexists _, _. split; [vm_compute; reflexivity|].
  split; [exact Hh|]. split; [exact Hn | exact Hf].
Defined.

Lemma closed_handle_is_false_witness :
  exists h w',
    File_close RamFs.f_txt (RamFs.f_txt_world RamFs.card) = Ret h w'
    /\ File_bool h w' = Ret false w'
    /\ File_isDirectory h w' = Abort.
Proof.
  eexists _, _. split; [vm_compute; reflexivity|].
  apply (closed_handle_is_false RamFs.f_txt (RamFs.f_txt_world RamFs.card)).
  vm_compute. reflexivity.
Defined.

Lemma open_true_iff_success_witness :
  exists b,
    File_bool RamFs.f_txt (RamFs.f_txt_world RamFs.card)
    = Ret b (RamFs.f_txt_world RamFs.card)
    /\ b = true.
Proof.
  destruct (open_true_iff_success "/a/f.txt" FILE_READ (RamFs.boot RamFs.card [])
              RamFs.f_txt (RamFs.f_txt_world RamFs.card) RamFs_binds_on_success)
    as (b & Hb & Hiff); [vm_compute; reflexivity|].
  exists b. split; [exact Hb|]. apply Hiff. reflexivity.
Defined.
